(** * Notification service and validation toolkit

    A shallow embedding of [src/utils/notificationService.js] (the
    notification facade and the real-time [NotificationManager]) and of the
    validation helpers that follow it in the same source file
    ([isValidEmail], [normalizeEmails], [isAllowedDomain],
    [validateEmailBatch], [parseBulkEmails]).

    Conventions of the embedding:
    - a JavaScript string is a list of code units; the model covers the
      code units U+0000..U+00FF, carried by [ascii] (8 bits), so that [\s],
      [trim] and [toLowerCase] are closed operations;
    - JavaScript values are the inductive [JsVal]; numbers are integers;
    - [await f(x)] on a single promise is a call that either returns or
      throws, so an [async] function is a computation in the monad [M] of
      state and exceptions; logging goes to the [console] of the state. *)

From Stdlib Require Import Ascii String ZArith NArith Lia.
From stdpp Require Import gmap strings list.

Set Default Proof Using "Type".

(* ===================================================================== *)
(** ** JavaScript strings *)
(* ===================================================================== *)

Abbreviation jstring := (list ascii).

(** String literals of the source, as code-unit lists. *)
Definition js (s : string) : jstring := list_ascii_of_string s.
Arguments js : simpl never.

Module JsString.

(** [WhiteSpace] and [LineTerminator] code points below U+0100: the
    characters matched by [\s] and stripped by [trim]. *)
Definition isSpace (c : ascii) : bool :=
  match N_of_ascii c with
  | 9%N | 10%N | 11%N | 12%N | 13%N | 32%N | 160%N => true
  | _ => false
  end.

(** [toLowerCase] on one code unit: A-Z, and the Latin-1 capitals
    U+00C0..U+00DE except the multiplication sign U+00D7. *)
Definition lowerChar (c : ascii) : ascii :=
  let n := N_of_ascii c in
  if ((65 <=? n) && (n <=? 90))%N
     || ((192 <=? n) && (n <=? 222) && negb (n =? 215))%N
  then ascii_of_N (n + 32) else c.

Definition toLowerCase (s : jstring) : jstring := lowerChar <$> s.

Fixpoint trimStart (s : jstring) : jstring :=
  match s with
  | c :: s' => if isSpace c then trimStart s' else s
  | [] => []
  end.

Definition trimEnd (s : jstring) : jstring := reverse (trimStart (reverse s)).

Definition trim (s : jstring) : jstring := trimEnd (trimStart s).

(** [s.split(c)] for a one-character separator string. *)
Fixpoint split (c : ascii) (s : jstring) : list jstring :=
  match s with
  | [] => [[]]
  | x :: s' =>
      if Ascii.eqb x c then [] :: split c s'
      else match split c s' with
           | h :: t => (x :: h) :: t
           | [] => [[x]]
           end
  end.

(** [s.split(/[cls]+/)] for a non-empty [s]: the separator matches a
    maximal run of characters of the class.  [cur] is the piece being
    read, [inRun] tells that the previous character was a separator. *)
Fixpoint splitRunsFrom (sep : ascii -> bool) (inRun : bool) (cur s : jstring)
  : list jstring :=
  match s with
  | [] => [cur]
  | c :: s' =>
      if sep c then
        if inRun then splitRunsFrom sep true cur s'
        else cur :: splitRunsFrom sep true [] s'
      else splitRunsFrom sep false (cur ++ [c]) s'
  end.

Definition splitRuns (sep : ascii -> bool) (s : jstring) : list jstring :=
  splitRunsFrom sep false [] s.

(** [s.endsWith(x)] *)
Definition endsWith (s x : jstring) : bool := bool_decide (x `suffix_of` s).

End JsString.

(* ===================================================================== *)
(** ** Regular expressions (the fragment used by the source) *)
(* ===================================================================== *)

Module Regex.

Inductive regex : Type :=
| Void : regex
| Eps : regex
| Class : (ascii -> bool) -> regex
| Seq : regex -> regex -> regex
| Alt : regex -> regex -> regex
| Star : regex -> regex.

(** [r+] *)
Definition Plus (r : regex) : regex := Seq r (Star r).

(** The language of a regular expression. *)
Inductive lang : regex -> jstring -> Prop :=
| lang_eps : lang Eps []
| lang_class p c : p c = true -> lang (Class p) [c]
| lang_seq r1 r2 s1 s2 : lang r1 s1 -> lang r2 s2 -> lang (Seq r1 r2) (s1 ++ s2)
| lang_alt_l r1 r2 s : lang r1 s -> lang (Alt r1 r2) s
| lang_alt_r r1 r2 s : lang r2 s -> lang (Alt r1 r2) s
| lang_star_nil r : lang (Star r) []
| lang_star_cons r s1 s2 :
    lang r s1 -> lang (Star r) s2 -> lang (Star r) (s1 ++ s2).

Fixpoint nullable (r : regex) : bool :=
  match r with
  | Void => false
  | Eps => true
  | Class _ => false
  | Seq r1 r2 => nullable r1 && nullable r2
  | Alt r1 r2 => nullable r1 || nullable r2
  | Star _ => true
  end.

Fixpoint deriv (c : ascii) (r : regex) : regex :=
  match r with
  | Void => Void
  | Eps => Void
  | Class p => if p c then Eps else Void
  | Seq r1 r2 =>
      if nullable r1 then Alt (Seq (deriv c r1) r2) (deriv c r2)
      else Seq (deriv c r1) r2
  | Alt r1 r2 => Alt (deriv c r1) (deriv c r2)
  | Star r1 => Seq (deriv c r1) (Star r1)
  end.

(** Whole-string match: [/^r$/.test(s)]. *)
Fixpoint test (r : regex) (s : jstring) : bool :=
  match s with
  | [] => nullable r
  | c :: s' => test (deriv c r) s'
  end.

End Regex.

(* ===================================================================== *)
(** ** Validation toolkit *)
(* ===================================================================== *)

(** The class [[^\s@]]. *)
Definition notSpaceAt (c : ascii) : bool :=
  negb (JsString.isSpace c || Ascii.eqb c "@").

(** [/^[^\s@]+@[^\s@]+\.[^\s@]+$/] *)
Definition emailRegex : Regex.regex :=
  Regex.Seq (Regex.Plus (Regex.Class notSpaceAt))
    (Regex.Seq (Regex.Class (Ascii.eqb "@"))
       (Regex.Seq (Regex.Plus (Regex.Class notSpaceAt))
          (Regex.Seq (Regex.Class (Ascii.eqb "."))
             (Regex.Plus (Regex.Class notSpaceAt))))).

Definition isValidEmail (email : jstring) : bool := Regex.test emailRegex email.

(** An allow-list argument: [None] is an argument that is absent
    ([undefined], replaced by the default [[]], or [null]). *)
Abbreviation allowList := (option (list jstring)).

(** [email.split('@')[1]?.toLowerCase()] *)
Definition emailDomainOf (email : jstring) : option jstring :=
  JsString.toLowerCase <$> (JsString.split "@" email !! 1%nat).

Definition isAllowedDomain (email : jstring) (allowedDomains : allowList) : bool :=
  if bool_decide (email = []) || negb (isValidEmail email) then false
  else
    match allowedDomains with
    | None => true
    | Some domains =>
        if (length domains =? 0)%nat then true
        else
          existsb
            (fun domain =>
               match emailDomainOf email with
               | Some emailDomain =>
                   bool_decide (emailDomain = JsString.toLowerCase domain)
                   || JsString.endsWith emailDomain
                        ("."%char :: JsString.toLowerCase domain)
               | None => false (* not reached: a valid email has an '@' *)
               end)
            domains
    end.

(** A character that an email may hold: neither white space nor [@]. *)
Definition emailChar (c : ascii) : Prop := notSpaceAt c = true.

(** The domain test of [isAllowedDomain], as a proposition: the domain is
    an entry, or a sub-domain of an entry, letter case aside. *)
Definition domainMatches (dom entry : jstring) : Prop :=
  JsString.toLowerCase dom = JsString.toLowerCase entry
  \/ exists pre,
      JsString.toLowerCase dom = pre ++ "."%char :: JsString.toLowerCase entry.

(** The bulk separator class [[,;\n\s]]. *)
Definition isBulkSep (c : ascii) : bool :=
  Ascii.eqb c "," || Ascii.eqb c ";" || Ascii.eqb c "010" || JsString.isSpace c.

Record BulkResults : Type := mkBulk {
  valid : list jstring;
  invalid : list jstring;
  duplicates : list jstring;
  domainRestricted : list jstring
}.

Definition emptyBulk : BulkResults := mkBulk [] [] [] [].

(** Appending the buckets of two results. *)
Definition appendBulk (r1 r2 : BulkResults) : BulkResults :=
  mkBulk (valid r1 ++ valid r2) (invalid r1 ++ invalid r2)
    (duplicates r1 ++ duplicates r2) (domainRestricted r1 ++ domainRestricted r2).

(** Two lists are disjoint when they share no element. *)
Definition disjointLists (l k : list jstring) : Prop := forall x, x ∈ l -> x ∉ k.

(** C4 as the specification states it: the four buckets are pairwise
    disjoint. *)
Definition bucketsPairwiseDisjoint (r : BulkResults) : Prop :=
  disjointLists (valid r) (invalid r)
  /\ disjointLists (valid r) (duplicates r)
  /\ disjointLists (valid r) (domainRestricted r)
  /\ disjointLists (invalid r) (duplicates r)
  /\ disjointLists (invalid r) (domainRestricted r)
  /\ disjointLists (duplicates r) (domainRestricted r).

(** The tokens of [parseBulkEmails]: split, trim and lower-case, drop the
    empty ones. *)
Definition bulkTokens (input : jstring) : list jstring :=
  filter (fun email => (0 < length email)%nat)
    ((fun email => JsString.toLowerCase (JsString.trim email))
       <$> JsString.splitRuns isBulkSep input).

(** [allowedDomains.length > 0]; with an absent list the test is never
    reached (the left operand of [&&] is false), or the default [[]] has
    length 0. *)
Definition nonEmptyAllowList (allowedDomains : allowList) : bool :=
  match allowedDomains with
  | Some domains => (0 <? length domains)%nat
  | None => false
  end.

(** One turn of the [forEach] of [parseBulkEmails] on the pair of the
    result object and the [seen] set. *)
Definition bulkStep (allowedDomains : allowList)
    (st : BulkResults * gset jstring) (email : jstring)
  : BulkResults * gset jstring :=
  let '(results, seen) := st in
  if negb (isValidEmail email) then
    (mkBulk (valid results) (invalid results ++ [email])
       (duplicates results) (domainRestricted results), seen)
  else if bool_decide (email ∈ seen) then
    (mkBulk (valid results) (invalid results)
       (duplicates results ++ [email]) (domainRestricted results), seen)
  else if negb (isAllowedDomain email allowedDomains)
          && nonEmptyAllowList allowedDomains then
    (mkBulk (valid results) (invalid results)
       (duplicates results) (domainRestricted results ++ [email]), seen)
  else
    (mkBulk (valid results ++ [email]) (invalid results)
       (duplicates results) (domainRestricted results), {[ email ]} ∪ seen).

Definition parseBulkEmails (input : jstring) (allowedDomains : allowList)
  : BulkResults :=
  if bool_decide (input = []) then emptyBulk
  else
    let emails := bulkTokens input in
    fst (foldl (bulkStep allowedDomains) (emptyBulk, ∅) emails).

(* ===================================================================== *)
(** ** JavaScript values *)
(* ===================================================================== *)

#[local] Set Warnings "-register-all".

(** The values that cross the facade.  An object is the list of its
    own properties in insertion order; the source builds objects from
    literals only. *)
Inductive JsVal : Type :=
| JUndefined : JsVal
| JNull : JsVal
| JBool : bool -> JsVal
| JNum : Z -> JsVal
| JStr : jstring -> JsVal
| JArr : list JsVal -> JsVal
| JObj : list (string * JsVal) -> JsVal.

Module Js.

(** [ToBoolean] *)
Definition truthy (v : JsVal) : bool :=
  match v with
  | JUndefined | JNull => false
  | JBool b => b
  | JNum n => negb (n =? 0)%Z
  | JStr s => negb (bool_decide (s = []))
  | JArr _ | JObj _ => true
  end.

Definition nullish (v : JsVal) : bool :=
  match v with
  | JUndefined | JNull => true
  | _ => false
  end.

(** [a || b] *)
Definition or (a b : JsVal) : JsVal := if truthy a then a else b.

Fixpoint lookupField (k : string) (fields : list (string * JsVal))
  : option JsVal :=
  match fields with
  | [] => None
  | (k', v) :: rest => if String.eqb k k' then Some v else lookupField k rest
  end.

Definition hasField (k : string) (v : JsVal) : bool :=
  match v with
  | JObj fields => bool_decide (is_Some (lookupField k fields))
  | _ => false
  end.

(** [v.k] on a value that is neither [null] nor [undefined]. *)
Definition getField (v : JsVal) (k : string) : JsVal :=
  match v with
  | JObj fields => default JUndefined (lookupField k fields)
  | JArr l =>
      if String.eqb k "length" then JNum (Z.of_nat (length l)) else JUndefined
  | JStr s =>
      if String.eqb k "length" then JNum (Z.of_nat (length s)) else JUndefined
  | _ => JUndefined
  end.

(** [v?.k] *)
Definition optChain (v : JsVal) (k : string) : JsVal :=
  if nullish v then JUndefined else getField v k.

(** [a === b] where one side is a primitive; two objects are compared
    by identity, which a literal never shares. *)
Definition strictEq (a b : JsVal) : bool :=
  match a, b with
  | JUndefined, JUndefined | JNull, JNull => true
  | JBool x, JBool y => Bool.eqb x y
  | JNum x, JNum y => (x =? y)%Z
  | JStr x, JStr y => bool_decide (x = y)
  | _, _ => false
  end.

(** The [TypeError] raised by the engine. *)
Definition typeError (msg : string) : JsVal :=
  JObj [("name", JStr (js "TypeError")); ("message", JStr (js msg))].

(** The [TypeError] of reading property [k] of [null] or [undefined],
    with its message as V8 words it. *)
Definition cannotRead (v : JsVal) (k : string) : JsVal :=
  typeError
    (String.append "Cannot read properties of "
       (String.append (match v with JNull => "null" | _ => "undefined" end)
          (String.append " (reading '" (String.append k "')")))).

(** [new Error(msg)] *)
Definition error (msg : string) : JsVal :=
  JObj [("name", JStr (js "Error")); ("message", JStr (js msg))].

End Js.

(** [normalizeEmails]: a string is split on commas, an array is taken
    element by element (an element that is not a string counts as ['']). *)
Definition normalizeEmails (emails : JsVal) : list jstring :=
  if negb (Js.truthy emails) then []
  else
    match emails with
    | JStr s =>
        filter (fun email => (0 < length email)%nat ∧ isValidEmail email = true)
          ((fun email => JsString.toLowerCase (JsString.trim email))
             <$> JsString.split "," s)
    | JArr l =>
        filter (fun email => (0 < length email)%nat ∧ isValidEmail email = true)
          ((fun email =>
              match email with
              | JStr s => JsString.toLowerCase (JsString.trim s)
              | _ => []
              end) <$> l)
    | _ => []
    end.

Record BatchResults : Type := mkBatch {
  batchValid : list jstring;
  batchInvalid : list jstring;
  batchDomainRestricted : list jstring
}.

(** One turn of the [forEach] of [validateEmailBatch]. *)
Definition batchStep (allowedDomains : allowList) (results : BatchResults)
    (email : jstring) : BatchResults :=
  if negb (isValidEmail email) then
    mkBatch (batchValid results) (batchInvalid results ++ [email])
      (batchDomainRestricted results)
  else if negb (isAllowedDomain email allowedDomains) then
    mkBatch (batchValid results) (batchInvalid results)
      (batchDomainRestricted results ++ [email])
  else
    mkBatch (batchValid results ++ [email]) (batchInvalid results)
      (batchDomainRestricted results).

Definition validateEmailBatch (emails : JsVal) (allowedDomains : allowList)
  : BatchResults :=
  let normalizedEmails := normalizeEmails emails in
  foldl (batchStep allowedDomains) (mkBatch [] [] []) normalizedEmails.

(* ===================================================================== *)
(** ** State, exceptions and the console *)
(* ===================================================================== *)

Inductive LogEntry : Type :=
| LogError : string -> JsVal -> LogEntry   (* console.error(msg, value) *)
| LogInfo : string -> LogEntry.            (* console.log(msg) *)

(** The fields of a [NotificationManager].  A listener is a reference to
    a function object; the [Set] of listeners is kept in insertion order,
    the order in which [forEach] visits it.  [pollingInterval] is [null]
    or the handle returned by [setInterval]. *)
Record Manager : Type := mkManager {
  listeners : list nat;
  notifications : JsVal;
  isPolling : bool;
  pollingInterval : option N
}.

Inductive Outcome (A : Type) : Type :=
| Ret : A -> Outcome A
| Throw : JsVal -> Outcome A.
Arguments Ret {A} _.
Arguments Throw {A} _.

Section Service.

(** The state of the backend behind [realApiService], which is not part
    of this module. *)
Context {Backend : Type}.

(** [realApiService.notifications]: each operation returns a result or
    throws, and may change the backend. *)
Record ApiClient : Type := mkApi {
  getAll : JsVal -> Backend -> Outcome JsVal * Backend;
  create : JsVal -> Backend -> Outcome JsVal * Backend;
  markAsRead : JsVal -> Backend -> Outcome JsVal * Backend;
  markAllAsRead : Backend -> Outcome JsVal * Backend;
  delete : JsVal -> Backend -> Outcome JsVal * Backend;
  getStats : Backend -> Outcome JsVal * Backend
}.

(** Everything the module can read or change: the singleton manager,
    the backend, the console, the trace of listener invocations
    (listener, argument), the recurring actions scheduled with
    [setInterval] (handle, period) and the next free handle. *)
Record System : Type := mkSystem {
  manager : Manager;
  backend : Backend;
  console : list LogEntry;
  calls : list (nat * JsVal);
  intervals : list (N * N);
  nextTimer : N
}.

Definition M (A : Type) : Type := System -> Outcome A * System.

#[export] Instance M_ret : MRet M := fun A a s => (Ret a, s).

#[export] Instance M_bind : MBind M := fun A B k m s =>
  match m s with
  | (Ret a, s') => k a s'
  | (Throw e, s') => (Throw e, s')
  end.

Definition throw {A : Type} (e : JsVal) : M A := fun s => (Throw e, s).

(** [try { body } catch (error) { handler }] *)
Definition tryCatch {A : Type} (body : M A) (handler : JsVal -> M A) : M A :=
  fun s =>
    match body s with
    | (Ret a, s') => (Ret a, s')
    | (Throw e, s') => handler e s'
    end.

(** [list.forEach(body)]: an exception of [body] ends the loop. *)
Fixpoint forEach {A : Type} (body : A -> M unit) (l : list A) : M unit :=
  match l with
  | [] => mret tt
  | x :: l' => body x;; forEach body l'
  end.

(** [array.some(pred)] *)
Fixpoint someM {A : Type} (pred : A -> M bool) (l : list A) : M bool :=
  match l with
  | [] => mret false
  | x :: l' => b ← pred x; if (b : bool) then mret true else someM pred l'
  end.

Definition setManager (m : Manager) : M unit := fun s =>
  (Ret tt, mkSystem m (backend s) (console s) (calls s) (intervals s)
             (nextTimer s)).

Definition getManager : M Manager := fun s => (Ret (manager s), s).

Definition consoleError (msg : string) (v : JsVal) : M unit := fun s =>
  (Ret tt, mkSystem (manager s) (backend s) (console s ++ [LogError msg v])
             (calls s) (intervals s) (nextTimer s)).

Definition consoleLog (msg : string) : M unit := fun s =>
  (Ret tt, mkSystem (manager s) (backend s) (console s ++ [LogInfo msg])
             (calls s) (intervals s) (nextTimer s)).

(** [await op(...)] on the API client. *)
Definition callApi (op : Backend -> Outcome JsVal * Backend) : M JsVal :=
  fun s =>
    let '(r, b) := op (backend s) in
    (r, mkSystem (manager s) b (console s) (calls s) (intervals s)
          (nextTimer s)).

(** [v.k], which throws on [null] and [undefined]. *)
Definition getProp (v : JsVal) (k : string) : M JsVal :=
  if Js.nullish v
  then throw (Js.cannotRead v k)
  else mret (Js.getField v k).

(** [setInterval(handler, delay)]: the handler of this module is the
    poll of [startRealTime]. *)
Definition setInterval (delay : N) : M N := fun s =>
  (Ret (nextTimer s),
   mkSystem (manager s) (backend s) (console s) (calls s)
     (intervals s ++ [(nextTimer s, delay)]) (N.succ (nextTimer s))).

Definition clearInterval (id : N) : M unit := fun s =>
  (Ret tt,
   mkSystem (manager s) (backend s) (console s) (calls s)
     (filter (fun t => t.1 ≠ id) (intervals s)) (nextTimer s)).

(* ------------------------------------------------------------------- *)
(** *** Notification facade *)
(* ------------------------------------------------------------------- *)

Variable api : ApiClient.

(** [result?.data || result] *)
Definition unwrap (result : JsVal) : JsVal :=
  Js.or (Js.optChain result "data") result.

Definition getNotifications (filters : JsVal) : M JsVal :=
  let filters := match filters with JUndefined => JObj [] | _ => filters end in
  tryCatch
    (result ← callApi (getAll api filters);
     mret (JObj [("success", JBool true);
                 ("data", Js.or (unwrap result) (JArr []));
                 ("error", JNull)]))
    (fun error =>
       consoleError "Failed to fetch notifications, falling back to mock:"
             error;;
       message ← getProp error "message";
       mret (JObj [("success", JBool false);
                   ("data", JArr []);
                   ("error", message)])).

Definition createNotification (notificationData : JsVal) : M JsVal :=
  tryCatch
    (result ← callApi (create api notificationData);
     mret (JObj [("success", JBool true);
                 ("data", unwrap result);
                 ("error", JNull)]))
    (fun error =>
       consoleError "Failed to create notification:" error;;
       message ← getProp error "message";
       mret (JObj [("success", JBool false); ("error", message)])).

Definition markNotificationAsRead (notificationId : JsVal) : M JsVal :=
  tryCatch
    (result ← callApi (markAsRead api notificationId);
     mret (JObj [("success", JBool true);
                 ("data", unwrap result);
                 ("error", JNull)]))
    (fun error =>
       consoleError "Failed to mark notification as read:" error;;
       message ← getProp error "message";
       mret (JObj [("success", JBool false); ("error", message)])).

Definition markAllNotificationsAsRead : M JsVal :=
  tryCatch
    (result ← callApi (markAllAsRead api);
     mret (JObj [("success", JBool true);
                 ("data", unwrap result);
                 ("error", JNull)]))
    (fun error =>
       consoleError "Failed to mark all notifications as read:" error;;
       message ← getProp error "message";
       mret (JObj [("success", JBool false); ("error", message)])).

Definition deleteNotification (notificationId : JsVal) : M JsVal :=
  tryCatch
    (result ← callApi (delete api notificationId);
     mret (JObj [("success", JBool true);
                 ("data", unwrap result);
                 ("error", JNull)]))
    (fun error =>
       consoleError "Failed to delete notification:" error;;
       message ← getProp error "message";
       mret (JObj [("success", JBool false); ("error", message)])).

Definition getNotificationStats : M JsVal :=
  tryCatch
    (result ← callApi (getStats api);
     mret (JObj [("success", JBool true);
                 ("data", unwrap result);
                 ("error", JNull)]))
    (fun error =>
       consoleError "Failed to fetch notification stats:" error;;
       message ← getProp error "message";
       mret (JObj [("success", JBool false); ("error", message)])).

(** [(n) => n.type === 'welcome' || n.notification_metadata?.isWelcome],
    as [some] reads it. *)
Definition isWelcomeEntry (n : JsVal) : M bool :=
  type ← getProp n "type";
  if Js.strictEq type (JStr (js "welcome")) then mret true
  else
    metadata ← getProp n "notification_metadata";
    mret (Js.truthy (Js.optChain metadata "isWelcome")).

(** [v.some(pred)]: only an array has the method. *)
Definition arraySome (v : JsVal) (pred : JsVal -> M bool) : M bool :=
  match v with
  | JArr l => someM pred l
  | _ => throw (Js.typeError "notifications.some is not a function")
  end.

Definition checkFirstTimeUser : M bool :=
  tryCatch
    (result ← getNotifications (JObj [("limit", JNum 1)]);
     data ← getProp result "data";
     let notifications := Js.or data (JArr []) in
     len ← getProp notifications "length";
     if Js.strictEq len (JNum 0) then mret true
     else
       hasWelcome ← arraySome notifications isWelcomeEntry;
       mret (negb hasWelcome))
    (fun error =>
       consoleError "Failed to check first-time user status:" error;;
       mret false).

(* ------------------------------------------------------------------- *)
(** *** NotificationManager *)
(* ------------------------------------------------------------------- *)

(** The function objects registered as listeners: called with the
    notifications, a listener returns ([None]) or throws ([Some e]).
    Listeners that call back into the manager are outside the model. *)
Variable callbacks : nat -> JsVal -> option JsVal.

(** [constructor()] *)
Definition newManager : Manager := mkManager [] (JArr []) false None.

(** [callback(this.notifications)] *)
Definition invoke (callback : nat) : M unit := fun s =>
  let arg := notifications (manager s) in
  let s' := mkSystem (manager s) (backend s) (console s)
              (calls s ++ [(callback, arg)]) (intervals s) (nextTimer s) in
  match callbacks callback arg with
  | None => (Ret tt, s')
  | Some e => (Throw e, s')
  end.

Definition notifyListeners : M unit :=
  m ← getManager;
  forEach
    (fun callback =>
       tryCatch (invoke callback)
         (fun error => consoleError "Error in notification listener:" error))
    (listeners m).

(** The handler given to [setInterval] by [startRealTime]. *)
Definition pollTick : M unit :=
  tryCatch
    (result ← getNotifications JUndefined;
     success ← getProp result "success";
     if Js.truthy success then
       data ← getProp result "data";
       m ← getManager;
       setManager
             (mkManager (listeners m) data (isPolling m) (pollingInterval m));;
       notifyListeners
     else mret tt)
    (fun error => consoleError "Error polling notifications:" error).

Definition startRealTime : M unit :=
  m ← getManager;
  if isPolling m then mret tt
  else
    setManager
          (mkManager (listeners m) (notifications m) true (pollingInterval m));;
    id ← setInterval 30000;
    m ← getManager;
    setManager
          (mkManager (listeners m) (notifications m) (isPolling m) (Some id));;
    consoleLog "Real-time notifications started".

(** A handle is truthy unless it is 0. *)
Definition handleTruthy (h : option N) : bool :=
  match h with
  | Some id => negb (id =? 0)%N
  | None => false
  end.

Definition stopRealTime : M unit :=
  m ← getManager;
  (if handleTruthy (pollingInterval m) then
     clearInterval (default 0%N (pollingInterval m));;
     m ← getManager;
     setManager
       (mkManager (listeners m) (notifications m) (isPolling m) None)
   else mret tt);;
  m ← getManager;
  setManager
        (mkManager (listeners m) (notifications m) false (pollingInterval m));;
  consoleLog "Real-time notifications stopped".

(** [this.listeners.add(callback)] *)
Definition addListener (callback : nat) : M unit :=
  m ← getManager;
  setManager
    (mkManager
       (if bool_decide (callback ∈ listeners m) then listeners m
        else listeners m ++ [callback])
       (notifications m) (isPolling m) (pollingInterval m)).

(** The function returned by [addListener]:
    [() => this.listeners.delete(callback)]. *)
Definition unregister (callback : nat) : M unit :=
  m ← getManager;
  setManager
    (mkManager (filter (fun c => c ≠ callback) (listeners m))
       (notifications m) (isPolling m) (pollingInterval m)).

(** [this.notifications.filter((n) => !n.read).length], on an array of
    notification objects. *)
Definition getUnreadCount (m : Manager) : nat :=
  match notifications m with
  | JArr l => length (filter (fun n => Js.truthy (Js.getField n "read") = false) l)
  | _ => 0
  end.

(** The six operations of the facade, with their arguments. *)
Inductive FacadeOp : Type :=
| OpGetNotifications (filters : JsVal)
| OpCreateNotification (notificationData : JsVal)
| OpMarkNotificationAsRead (notificationId : JsVal)
| OpMarkAllNotificationsAsRead
| OpDeleteNotification (notificationId : JsVal)
| OpGetNotificationStats.

Definition runFacade (op : FacadeOp) : M JsVal :=
  match op with
  | OpGetNotifications filters => getNotifications filters
  | OpCreateNotification d => createNotification d
  | OpMarkNotificationAsRead i => markNotificationAsRead i
  | OpMarkAllNotificationsAsRead => markAllNotificationsAsRead
  | OpDeleteNotification i => deleteNotification i
  | OpGetNotificationStats => getNotificationStats
  end.

(** The call that each operation makes on the API client. *)
Definition clientCall (op : FacadeOp) : Backend -> Outcome JsVal * Backend :=
  match op with
  | OpGetNotifications filters =>
      getAll api (match filters with JUndefined => JObj [] | _ => filters end)
  | OpCreateNotification d => create api d
  | OpMarkNotificationAsRead i => markAsRead api i
  | OpMarkAllNotificationsAsRead => markAllAsRead api
  | OpDeleteNotification i => delete api i
  | OpGetNotificationStats => getStats api
  end.

(** What the module's clients and the timer can do to the system. *)
Inductive Action : Type :=
| AStart
| AStop
| AAddListener (callback : nat)
| AUnregister (callback : nat)
| ATick
| AFacade (op : FacadeOp)
| ACheckFirstTimeUser.

Definition ignore {A : Type} (m : M A) : M unit := m;; mret tt.

Definition perform (a : Action) : M unit :=
  match a with
  | AStart => startRealTime
  | AStop => stopRealTime
  | AAddListener callback => addListener callback
  | AUnregister callback => unregister callback
  | ATick => pollTick
  | AFacade op => ignore (runFacade op)
  | ACheckFirstTimeUser => ignore checkFirstTimeUser
  end.

(** The module as loaded: the singleton is constructed, nothing is
    logged or scheduled; timer handles start at 1. *)
Definition initSystem (b : Backend) : System :=
  mkSystem newManager b [] [] [] 1.

(** The states of the system: the initial one and those obtained by
    actions.  A tick is allowed at any time, which also covers a poll
    that completes after [stopRealTime]. *)
Inductive reachable : System -> Prop :=
| reachable_init b : reachable (initSystem b)
| reachable_step a s : reachable s -> reachable (perform a s).2.

End Service.

Arguments ApiClient : clear implicits.
Arguments System : clear implicits.
Arguments M : clear implicits.

(** Computations that read the state and leave it as it is. *)
Definition stateless {Backend A : Type} (m : M Backend A) : Prop :=
  forall s, exists r, m s = (r, s).

(* ===================================================================== *)
(** ** Envelopes and a scripted API client *)
(* ===================================================================== *)

(** The [data] of the envelope of a call that succeeded. *)
Definition successData (op : FacadeOp) (result : JsVal) : JsVal :=
  match op with
  | OpGetNotifications _ => Js.or (unwrap result) (JArr [])
  | _ => unwrap result
  end.

(** The first argument of the [console.error] of each [catch]. *)
Definition failureMessage (op : FacadeOp) : string :=
  match op with
  | OpGetNotifications _ => "Failed to fetch notifications, falling back to mock:"
  | OpCreateNotification _ => "Failed to create notification:"
  | OpMarkNotificationAsRead _ => "Failed to mark notification as read:"
  | OpMarkAllNotificationsAsRead => "Failed to mark all notifications as read:"
  | OpDeleteNotification _ => "Failed to delete notification:"
  | OpGetNotificationStats => "Failed to fetch notification stats:"
  end.

(** The state after a facade call: the backend as the client left it and,
    for a call that threw, one more line on the console. *)
Definition afterCall {Backend : Type} (s : System Backend) (b : Backend)
    (logged : list LogEntry) : System Backend :=
  mkSystem (manager s) b (console s ++ logged) (calls s) (intervals s)
    (nextTimer s).

(** C2 as the specification states it, for the envelope of a call that
    failed: [data] is present and is an empty sequence or object. *)
Definition dataDefaulted (env : JsVal) : Prop :=
  Js.hasField "data" env = true
  /\ (Js.getField env "data" = JArr [] \/ Js.getField env "data" = JObj []).

(** A client that answers from a script: each call takes the next
    prepared outcome; with the script exhausted the network is down. *)
Definition scripted (script : list (Outcome JsVal))
  : Outcome JsVal * list (Outcome JsVal) :=
  match script with
  | r :: rest => (r, rest)
  | [] => (Throw (Js.error "Network Error"), [])
  end.

Definition scriptedApi : ApiClient (list (Outcome JsVal)) :=
  mkApi (fun _ => scripted) (fun _ => scripted) (fun _ => scripted) scripted
    (fun _ => scripted) scripted.

(** A welcome notification, as [createWelcomeNotification] builds it. *)
Definition welcomeNotification : JsVal :=
  JObj [("title", JStr (js "Welcome to Agno WorkSphere!"));
        ("type", JStr (js "welcome"));
        ("priority", JStr (js "high"));
        ("notification_metadata", JObj [("isWelcome", JBool true)])].

(** An entry is flagged as a welcome notification. *)
Definition flaggedWelcome (n : JsVal) : bool :=
  Js.strictEq (Js.getField n "type") (JStr (js "welcome"))
  || Js.truthy (Js.optChain (Js.getField n "notification_metadata") "isWelcome").

(** What [notifyListeners] writes on the console: one line for each
    listener that throws, in the order of the listeners. *)
Definition listenerErrors (callbacks : nat -> JsVal -> option JsVal)
    (arg : JsVal) (l : list nat) : list LogEntry :=
  omap (fun callback =>
          LogError "Error in notification listener:" <$> callbacks callback arg)
    l.

(** The invocations of a fan-out: every listener once, with [arg]. *)
Definition invocations (arg : JsVal) (l : list nat) : list (nat * JsVal) :=
  (fun callback => (callback, arg)) <$> l.

(** Three listeners, the second of which throws. *)
Definition secondThrows (callback : nat) (_ : JsVal) : option JsVal :=
  if (callback =? 2)%nat then Some (Js.error "listener failed") else None.

(** A manager that is polling with listeners 1, 2 and 3 registered. *)
Definition pollingSystem (script : list (Outcome JsVal))
  : System (list (Outcome JsVal)) :=
  (perform scriptedApi secondThrows AStart
     (perform scriptedApi secondThrows (AAddListener 3)
        (perform scriptedApi secondThrows (AAddListener 2)
           (perform scriptedApi secondThrows (AAddListener 1)
              (initSystem script)).2).2).2).2.

(** Two notifications, the first of them read. *)
Definition twoNotifications : JsVal :=
  JArr [JObj [("id", JNum 1); ("type", JStr (js "task_assigned"));
              ("read", JBool true)];
        JObj [("id", JNum 2); ("type", JStr (js "task_updated"));
              ("read", JBool false)]].

(** At most one recurring poll is scheduled, and the manager's flag and
    handle say which: polling with the handle of the one scheduled poll,
    or idle with no handle and nothing scheduled. *)
Definition timerInv {Backend : Type} (s : System Backend) : Prop :=
  nextTimer s <> 0%N
  /\ ((isPolling (manager s) = true
       /\ exists id, id <> 0%N /\ pollingInterval (manager s) = Some id
                     /\ intervals s = [(id, 30000%N)])
      \/ (isPolling (manager s) = false
          /\ pollingInterval (manager s) = None /\ intervals s = [])).

(* ===================================================================== *)
(** ** Bulk parsing as the specification words it *)
(* ===================================================================== *)

(** The reading of [parseBulkEmails] that the code is compared with: tokens are the maximal runs of non-separator
    characters, lower-cased; each token is classified from the tokens
    classified valid before it. *)
Module BulkSpec.

Fixpoint words (sep : ascii -> bool) (cur s : jstring) : list jstring :=
  match s with
  | [] => match cur with [] => [] | _ => [cur] end
  | c :: s' =>
      if sep c then
        match cur with
        | [] => words sep [] s'
        | _ => cur :: words sep [] s'
        end
      else words sep (cur ++ [c]) s'
  end.

Definition tokens (input : jstring) : list jstring :=
  JsString.toLowerCase <$> words isBulkSep [] input.

Inductive Bucket : Type := Invalid | Duplicate | Restricted | Valid.

#[export] Instance Bucket_eq_dec : EqDecision Bucket.
Proof. solve_decision. Defined.

(** invalid, then duplicate of an earlier valid token, then
    domain-restricted, then valid. *)
Definition classify (allowedDomains : allowList) (earlierValid : list jstring)
    (token : jstring) : Bucket :=
  if negb (isValidEmail token) then Invalid
  else if bool_decide (token ∈ earlierValid) then Duplicate
  else if negb (isAllowedDomain token allowedDomains)
          && nonEmptyAllowList allowedDomains then Restricted
  else Valid.

Fixpoint classifyAll (allowedDomains : allowList) (earlierValid : list jstring)
    (toks : list jstring) : list (jstring * Bucket) :=
  match toks with
  | [] => []
  | t :: rest =>
      let b := classify allowedDomains earlierValid t in
      (t, b)
        :: classifyAll allowedDomains
             (match b with Valid => earlierValid ++ [t] | _ => earlierValid end)
             rest
  end.

(** The tokens of one bucket, in input order. *)
Definition bucket (b : Bucket) (cl : list (jstring * Bucket)) : list jstring :=
  (filter (fun p => p.2 = b) cl).*1.

Definition results (cl : list (jstring * Bucket)) : BulkResults :=
  mkBulk (bucket Valid cl) (bucket Invalid cl) (bucket Duplicate cl)
    (bucket Restricted cl).

Definition parse (input : jstring) (allowedDomains : allowList) : BulkResults :=
  results (classifyAll allowedDomains [] (tokens input)).

(** What a class says about its token alone. *)
Definition classOK (allowedDomains : allowList) (t : jstring) (b : Bucket) : Prop :=
  match b with
  | Invalid => isValidEmail t = false
  | Duplicate => isValidEmail t = true
  | Restricted =>
      isValidEmail t = true /\ isAllowedDomain t allowedDomains = false
      /\ nonEmptyAllowList allowedDomains = true
  | Valid =>
      isValidEmail t = true
      /\ (isAllowedDomain t allowedDomains = true
          \/ nonEmptyAllowList allowedDomains = false)
  end.

End BulkSpec.

(* ===================================================================== *)
(** ** The other predicates of the validation toolkit *)
(* ===================================================================== *)

Module RegexOps.

(** [r?] *)
Definition Opt (r : Regex.regex) : Regex.regex := Regex.Alt Regex.Eps r.

(** [r{0,n}] *)
Fixpoint upTo (n : nat) (r : Regex.regex) : Regex.regex :=
  match n with
  | O => Regex.Eps
  | S n' => Opt (Regex.Seq r (upTo n' r))
  end.

End RegexOps.

(** Every character class of the expression gives the same answer on
    [c] and on [f c]. *)
Fixpoint classesInvariant (f : ascii -> ascii) (r : Regex.regex) : Prop :=
  match r with
  | Regex.Void | Regex.Eps => True
  | Regex.Class p => forall c, p (f c) = p c
  | Regex.Seq r1 r2 | Regex.Alt r1 r2 => classesInvariant f r1 /\ classesInvariant f r2
  | Regex.Star r1 => classesInvariant f r1
  end.

(** The class [\d]: the digits 0-9. *)
Definition isDigit (c : ascii) : bool :=
  let n := N_of_ascii c in ((48 <=? n) && (n <=? 57))%N.

(** The class [[1-9]]. *)
Definition isDigit19 (c : ascii) : bool :=
  let n := N_of_ascii c in ((49 <=? n) && (n <=? 57))%N.

(** [/^[\+]?[1-9][\d]{0,15}$/] *)
Definition phoneRegex : Regex.regex :=
  Regex.Seq (RegexOps.Opt (Regex.Class (Ascii.eqb "+")))
    (Regex.Seq (Regex.Class isDigit19)
       (RegexOps.upTo 15 (Regex.Class isDigit))).

Definition isValidPhone (phone : jstring) : bool := Regex.test phoneRegex phone.

(** [password && password.length >= 6] on a string: for the empty string
    the value is the string itself. *)
Definition isValidPassword (password : jstring) : JsVal :=
  if bool_decide (password = []) then JStr password
  else JBool (6 <=? length password)%nat.

(** [name && name.trim().length >= 2] on a string. *)
Definition isValidName (name : jstring) : JsVal :=
  if bool_decide (name = []) then JStr name
  else JBool (2 <=? length (JsString.trim name))%nat.

(** [name && name.trim().length >= 2 && name.trim().length <= 100] on a
    string. *)
Definition isValidOrganization (name : jstring) : JsVal :=
  if bool_decide (name = []) then JStr name
  else if negb (2 <=? length (JsString.trim name))%nat then JBool false
  else JBool (length (JsString.trim name) <=? 100)%nat.

Definition validRoles : list jstring :=
  [js "admin"; js "manager"; js "employee"; js "viewer"].

(** [validRoles.includes(role?.toLowerCase())]; [None] is a role that is
    [null] or [undefined]. *)
Definition isValidRole (role : option jstring) : bool :=
  match role with
  | None => false
  | Some r => bool_decide (JsString.toLowerCase r ∈ validRoles)
  end.

(** [isRequired] on a string, [null] or [undefined] ([None]). *)
Definition isRequired (value : option jstring) : bool :=
  match value with
  | None => false
  | Some v => negb (bool_decide (JsString.trim v = []))
  end.

(** [extractDomain]: [None] is [null]. *)
Definition extractDomain (email : jstring) : option jstring :=
  if bool_decide (email = []) || negb (isValidEmail email) then None
  else emailDomainOf email.

(** [validateField]: the result of the first rule that does not return
    [true], else [true]. *)
Fixpoint validateField {V : Type} (value : V) (rules : list (V -> JsVal))
  : JsVal :=
  match rules with
  | [] => JBool true
  | rule :: rest =>
      let result := rule value in
      if negb (Js.strictEq result (JBool true)) then result
      else validateField value rest
  end.

Definition isDuplicateEmail (email : jstring) (existingEmails : list jstring)
  : bool :=
  let normalizedEmail := JsString.trim (JsString.toLowerCase email) in
  existsb
    (fun existing =>
       bool_decide
         (JsString.trim (JsString.toLowerCase existing) = normalizedEmail))
    existingEmails.

(** [list.join(sep)] on strings. *)
Fixpoint join (sep : jstring) (l : list jstring) : jstring :=
  match l with
  | [] => []
  | [x] => x
  | x :: rest => x ++ sep ++ join sep rest
  end.

Module Invitation.

(** The fields of the invitation that the validator reads; [None] is a
    field that is missing, [null] or [undefined]. *)
Record Data : Type := mkData {
  email : option jstring;
  role : option jstring;
  name : option jstring
}.

(** A string field is falsy when it is missing or empty. *)
Definition falsy (field : option jstring) : bool :=
  match field with
  | None => true
  | Some v => bool_decide (v = [])
  end.

(** The [errors] object: its keys in insertion order, with their
    messages. *)
Definition emailError (data : Data) (existingEmails : list jstring)
    (allowedDomains : allowList) : list (string * jstring) :=
  match email data with
  | None => [("email", js "Email is required")]
  | Some e =>
      if bool_decide (e = []) then [("email", js "Email is required")]
      else if negb (isValidEmail e) then
        [("email", js "Please enter a valid email address")]
      else if negb (isAllowedDomain e allowedDomains)
              && nonEmptyAllowList allowedDomains then
        [("email",
          js "Email domain not allowed. Allowed domains: "
            ++ join (js ", ") (default [] allowedDomains))]
      else if isDuplicateEmail e existingEmails then
        [("email", js "This email is already associated with a member")]
      else []
  end.

Definition roleError (data : Data) : list (string * jstring) :=
  if falsy (role data) then [("role", js "Role is required")]
  else if negb (isValidRole (role data)) then
    [("role", js "Please select a valid role")]
  else [].

Definition nameError (data : Data) : list (string * jstring) :=
  match name data with
  | None => []
  | Some n =>
      if negb (bool_decide (n = [])) && negb (Js.truthy (isValidName n)) then
        [("name", js "Please enter a valid name (at least 2 characters)")]
      else []
  end.

Record Result : Type := mkResult {
  isValid : bool;
  errors : list (string * jstring)
}.

(** [validateMemberInvitation(data, existingMembers, allowedDomains)];
    [existingEmails] is [existingMembers.map(m => m.email)]. *)
Definition validateMemberInvitation (data : Data) (existingEmails : list jstring)
    (allowedDomains : allowList) : Result :=
  let errors :=
    emailError data existingEmails allowedDomains ++ roleError data
      ++ nameError data in
  mkResult (length errors =? 0)%nat errors.

End Invitation.

(** [createValidationRules]: the factories [required], [email] and
    [domain]; a rule returns [true] or its message.  The value is a
    string, [null] or [undefined]. *)
Module Rules.

(** [(message = 'This field is required') => (value) =>
      isRequired(value) || message] *)
Definition required (message : option jstring) (value : option jstring)
  : JsVal :=
  let message := default (js "This field is required") message in
  if isRequired value then JBool true else JStr message.

(** [(message = 'Please enter a valid email address') => (value) =>
      isValidEmail(value) || message]; the regular expression reads
    [null] and [undefined] as the strings of these names. *)
Definition email (message : option jstring) (value : option jstring) : JsVal :=
  let message := default (js "Please enter a valid email address") message in
  if isValidEmail (match value with
                   | Some v => v
                   | None => js "undefined"
                   end)
  then JBool true else JStr message.

(** [(allowedDomains, message) => (value) =>
      (!value || isAllowedDomain(value, allowedDomains)) || message
        || 'Email domain not allowed'] *)
Definition domain (allowedDomains : allowList) (message : option jstring)
    (value : option jstring) : JsVal :=
  if Invitation.falsy value
     || isAllowedDomain (default [] value) allowedDomains
  then JBool true
  else
    match message with
    | Some m => if bool_decide (m = []) then JStr (js "Email domain not allowed")
                else JStr m
    | None => JStr (js "Email domain not allowed")
    end.

End Rules.

(* ===================================================================== *)
(** ** The rest of the notification service *)
(* ===================================================================== *)

(** The payload of [createWelcomeNotification]; [organizationName] is a
    string. *)
Definition welcomePayload (userId organizationId : JsVal)
    (organizationName : jstring) : JsVal :=
  JObj [("user_id", userId);
        ("organization_id", organizationId);
        ("title", JStr (js "Welcome to Agno WorkSphere!"));
        ("message",
         JStr (js "Welcome to " ++ organizationName
                 ++ js "! Start by exploring your dashboard and setting up your first project."));
        ("type", JStr (js "welcome"));
        ("priority", JStr (js "high"));
        ("action_url", JStr (js "/role-based-dashboard"));
        ("notification_metadata", JObj [("isWelcome", JBool true)])].

Definition createWelcomeNotification {Backend : Type} (api : ApiClient Backend)
    (userId organizationId : JsVal) (organizationName : jstring)
  : M Backend JsVal :=
  tryCatch
    (let payload := welcomePayload userId organizationId organizationName in
     createNotification api payload)
    (fun error =>
       consoleError "Failed to create welcome notification:" error;;
       message ← getProp error "message";
       mret (JObj [("success", JBool false); ("error", message)])).

(** [n.read] inside the [filter] of [getUnreadCount]: [true] when the
    notification counts as unread. *)
Definition isUnread {Backend : Type} (n : JsVal) : M Backend bool :=
  read ← getProp n "read"; mret (negb (Js.truthy read)).

(** [array.filter(pred).length] *)
Fixpoint countM {Backend : Type} (pred : JsVal -> M Backend bool)
    (l : list JsVal) : M Backend nat :=
  match l with
  | [] => mret 0%nat
  | x :: l' =>
      b ← pred x; k ← countM pred l';
      mret (if (b : bool) then S k else k)
  end.

(** [getUnreadCount()] with its exceptions: only an array has [filter],
    and reading [read] from an entry that is [null] or [undefined]
    throws. *)
Definition getUnreadCountM {Backend : Type} : M Backend nat :=
  m ← getManager;
  match notifications m with
  | JArr l => countM isUnread l
  | JUndefined | JNull => throw (Js.cannotRead (notifications m) "filter")
  | _ => throw (Js.typeError "this.notifications.filter is not a function")
  end.

(* ===================================================================== *)
(** * Properties *)
(* ===================================================================== *)

(** ** Regular expressions: the matcher decides the language *)

Module RegexFacts.
Import Regex.

Lemma lang_nil_nullable r s : lang r s -> s = [] -> nullable r = true.
Proof.
  induction 1 as [| | r1 r2 s1 s2 _ IH1 _ IH2 | r1 r2 s _ IH | r1 r2 s _ IH
                 | | r s1 s2 _ _ _ _]; intros Hs; simpl; try done.
  - apply app_eq_nil in Hs as [-> ->]. by rewrite IH1, IH2.
  - by rewrite IH.
  - rewrite (IH Hs). by destruct (nullable r1).
Qed.

Lemma nullable_lang_nil r : nullable r = true -> lang r [].
Proof.
  induction r as [| |p|r1 IH1 r2 IH2|r1 IH1 r2 IH2|r IH]; simpl; intros H;
    try done.
  - constructor.
  - apply andb_true_iff in H as [H1 H2].
    change (@nil ascii) with (@nil ascii ++ []). constructor; auto.
  - apply orb_true_iff in H as [H|H]; [apply lang_alt_l|apply lang_alt_r]; auto.
  - constructor.
Qed.

Lemma lang_deriv r s : lang r s -> forall c s', s = c :: s' -> lang (deriv c r) s'.
Proof.
  induction 1 as [| p x Hp | r1 r2 s1 s2 H1 IH1 H2 IH2 | r1 r2 s _ IH
                 | r1 r2 s _ IH | | r s1 s2 H1 IH1 H2 IH2];
    intros c s' Hs; simpl; try done.
  - injection Hs as -> <-. rewrite Hp. constructor.
  - destruct s1 as [|x s1]; simpl in Hs.
    + rewrite (lang_nil_nullable _ _ H1 eq_refl).
      apply lang_alt_r. by apply IH2.
    + injection Hs as -> <-.
      destruct (nullable r1); [apply lang_alt_l|]; constructor; auto.
  - apply lang_alt_l. by apply IH.
  - apply lang_alt_r. by apply IH.
  - destruct s1 as [|x s1]; simpl in Hs.
    + by apply IH2.
    + injection Hs as -> <-. constructor; auto.
Qed.

Lemma deriv_lang r : forall c s, lang (deriv c r) s -> lang r (c :: s).
Proof.
  induction r as [| |p|r1 IH1 r2 IH2|r1 IH1 r2 IH2|r IH]; simpl; intros c s H.
  - inversion H.
  - inversion H.
  - destruct (p c) eqn:Hp; inversion H; subst. by constructor.
  - destruct (nullable r1) eqn:Hn.
    + inversion H as [| |? ? s1 s2 Ha Hb| ? ? ? Ha | ? ? ? Ha | |]; subst.
      * inversion Ha as [| |? ? s1 s2 Hc Hd| | | |]; subst.
        change (c :: s1 ++ s2) with ((c :: s1) ++ s2). constructor; auto.
      * change (c :: s) with ([] ++ c :: s).
        constructor; [by apply nullable_lang_nil | auto].
    + inversion H as [| |? ? s1 s2 Ha Hb| | | |]; subst.
      change (c :: s1 ++ s2) with ((c :: s1) ++ s2). constructor; auto.
  - inversion H; subst; [apply lang_alt_l|apply lang_alt_r]; auto.
  - inversion H as [| |? ? s1 s2 Ha Hb| | | |]; subst.
    change (c :: s1 ++ s2) with ((c :: s1) ++ s2). constructor; auto.
Qed.

Lemma test_lang r s : test r s = true <-> lang r s.
Proof.
  revert r. induction s as [|c s IH]; intros r; simpl.
  - split; [apply nullable_lang_nil | intros H; by eapply lang_nil_nullable].
  - rewrite IH. split; [apply deriv_lang | intros H; by eapply lang_deriv].
Qed.

Lemma lang_star_class p s :
  lang (Star (Class p)) s <-> Forall (fun c => p c = true) s.
Proof.
  split.
  - intros H. remember (Star (Class p)) as r eqn:Hr.
    induction H as [| | | | | | r s1 s2 H1 _ H2 IH2]; try done.
    injection Hr as ->. inversion H1; subst. simpl. constructor; auto.
  - induction 1 as [|c s Hc _ IH]; [constructor|].
    change (c :: s) with ([c] ++ s). constructor; [by constructor | done].
Qed.

Lemma lang_plus_class p s :
  lang (Plus (Class p)) s <-> s <> [] /\ Forall (fun c => p c = true) s.
Proof.
  unfold Plus. split.
  - intros H. inversion H as [| |? ? s1 s2 Ha Hb| | | |]; subst.
    inversion Ha; subst. apply lang_star_class in Hb. simpl.
    split; [done | by constructor].
  - intros [Hne HF]. destruct s as [|c s]; [done|].
    apply Forall_cons in HF as [Hc HF].
    change (c :: s) with ([c] ++ s).
    constructor; [by constructor | by apply lang_star_class].
Qed.

Lemma lang_seq_inv r1 r2 s :
  lang (Seq r1 r2) s <-> exists s1 s2, s = s1 ++ s2 /\ lang r1 s1 /\ lang r2 s2.
Proof.
  split.
  - intros H. inversion H; subst. eauto.
  - intros (s1 & s2 & -> & H1 & H2). by constructor.
Qed.

Lemma lang_class_inv p s : lang (Class p) s <-> exists c, s = [c] /\ p c = true.
Proof.
  split.
  - intros H. inversion H; subst. eauto.
  - intros (c & -> & Hc). by constructor.
Qed.

End RegexFacts.

(** ** Strings *)

Module JsStringFacts.
Import JsString.

Lemma split_no_sep c s : c ∉ s -> split c s = [s].
Proof.
  induction s as [|x s IH]; intros Hc; simpl; [done|].
  apply not_elem_of_cons in Hc as [Hx Hs].
  destruct (Ascii.eqb_spec x c) as [->|_]; [done|]. by rewrite (IH Hs).
Qed.

Lemma split_app c l r : c ∉ l -> split c (l ++ c :: r) = l :: split c r.
Proof.
  induction l as [|x l IH]; intros Hc; simpl.
  - by rewrite Ascii.eqb_refl.
  - apply not_elem_of_cons in Hc as [Hx Hl].
    destruct (Ascii.eqb_spec x c) as [->|_]; [done|]. by rewrite (IH Hl).
Qed.

(** The position of a separator that occurs once is determined. *)
Lemma app_sep_unique (c : ascii) l r l' r' :
  c ∉ l -> c ∉ r -> l ++ c :: r = l' ++ c :: r' -> l = l' /\ r = r'.
Proof.
  revert l'. induction l as [|x l IH]; intros l' Hl Hr Heq.
  - destruct l' as [|y l']; simpl in Heq.
    + by injection Heq as ->.
    + injection Heq as <- ->. exfalso. apply Hr. set_solver.
  - apply not_elem_of_cons in Hl as [Hx Hl].
    destruct l' as [|y l']; simpl in Heq.
    + by injection Heq as ->.
    + injection Heq as -> Heq. destruct (IH l' Hl Hr Heq) as [-> ->]. done.
Qed.

Lemma trimStart_id s : Forall (fun c => isSpace c = false) s -> trimStart s = s.
Proof. destruct 1 as [|c s Hc _]; simpl; [done|]. by rewrite Hc. Qed.

Lemma trim_id s : Forall (fun c => isSpace c = false) s -> trim s = s.
Proof.
  intros H. unfold trim, trimEnd. rewrite (trimStart_id s H).
  rewrite trimStart_id; [apply reverse_involutive|].
  by apply Forall_reverse.
Qed.

Lemma length_toLowerCase s : length (toLowerCase s) = length s.
Proof. apply length_fmap. Qed.

End JsStringFacts.

(** ** Validation toolkit *)

Lemma emailChar_not_at c : emailChar c -> c <> "@"%char.
Proof.
  unfold emailChar, notSpaceAt. intros H ->.
  rewrite Ascii.eqb_refl, orb_true_r in H. done.
Qed.

Lemma emailChar_not_space c : emailChar c -> JsString.isSpace c = false.
Proof.
  unfold emailChar, notSpaceAt. intros H.
  apply negb_true_iff, orb_false_iff in H. tauto.
Qed.

Lemma Forall_emailChar_no_at s : Forall emailChar s -> "@"%char ∉ s.
Proof.
  intros H Hin. rewrite Forall_forall in H.
  by apply (emailChar_not_at _ (H _ Hin)).
Qed.

(** What the regular expression of [isValidEmail] accepts: a local part,
    an [@], and a domain with a dot inside, all three pieces non-empty
    and free of white space and of [@]. *)
Lemma isValidEmail_iff email :
  isValidEmail email = true <->
  exists l d t,
    email = l ++ "@"%char :: d ++ "."%char :: t
    /\ l <> [] /\ d <> [] /\ t <> []
    /\ Forall emailChar l /\ Forall emailChar d /\ Forall emailChar t.
Proof.
  unfold isValidEmail, emailRegex. rewrite RegexFacts.test_lang.
  rewrite RegexFacts.lang_seq_inv. split.
  - intros (l & r1 & -> & Hl & H).
    apply RegexFacts.lang_seq_inv in H as (a & r2 & -> & Ha & H).
    apply RegexFacts.lang_seq_inv in H as (d & r3 & -> & Hd & H).
    apply RegexFacts.lang_seq_inv in H as (o & t & -> & Ho & Ht).
    apply RegexFacts.lang_class_inv in Ha as (ca & -> & Hca).
    apply RegexFacts.lang_class_inv in Ho as (co & -> & Hco).
    apply Ascii.eqb_eq in Hca as <-. apply Ascii.eqb_eq in Hco as <-.
    apply RegexFacts.lang_plus_class in Hl as [? ?].
    apply RegexFacts.lang_plus_class in Hd as [? ?].
    apply RegexFacts.lang_plus_class in Ht as [? ?].
    exists l, d, t. simpl. done.
  - intros (l & d & t & -> & ? & ? & ? & ? & ? & ?).
    exists l, ("@"%char :: d ++ "."%char :: t). split; [done|].
    split; [by apply RegexFacts.lang_plus_class|].
    apply RegexFacts.lang_seq_inv. exists ["@"%char], (d ++ "."%char :: t).
    split; [done|]. split; [by constructor|].
    apply RegexFacts.lang_seq_inv. exists d, ("."%char :: t).
    split; [done|]. split; [by apply RegexFacts.lang_plus_class|].
    apply RegexFacts.lang_seq_inv. exists ["."%char], t.
    split; [done|]. split; [by constructor|].
    by apply RegexFacts.lang_plus_class.
Qed.

Lemma isValidEmail_nonempty email : isValidEmail email = true -> email <> [].
Proof. intros H ->. done. Qed.

(** A valid email has exactly one [@]: [split('@')] gives the local part
    and the domain. *)
Lemma isValidEmail_split email :
  isValidEmail email = true ->
  exists l dom,
    email = l ++ "@"%char :: dom /\ ("@"%char ∉ l) /\ ("@"%char ∉ dom)
    /\ JsString.split "@" email = [l; dom].
Proof.
  intros (l & d & t & -> & _ & _ & _ & Hl & Hd & Ht)%isValidEmail_iff.
  assert ("@"%char ∉ l) as Hnl by by apply Forall_emailChar_no_at.
  assert ("@"%char ∉ d ++ "."%char :: t) as Hnd.
  { rewrite elem_of_app, elem_of_cons.
    intros [H|[H|H]];
      [exact (Forall_emailChar_no_at _ Hd H) | done
      | exact (Forall_emailChar_no_at _ Ht H)]. }
  exists l, (d ++ "."%char :: t). repeat split; try done.
  rewrite JsStringFacts.split_app by done.
  by rewrite JsStringFacts.split_no_sep.
Qed.

(** The branch of [isAllowedDomain] where the domain is [undefined] is
    never taken. *)
Lemma emailDomainOf_valid email :
  isValidEmail email = true ->
  exists l dom,
    email = l ++ "@"%char :: dom /\ ("@"%char ∉ l) /\ ("@"%char ∉ dom)
    /\ emailDomainOf email = Some (JsString.toLowerCase dom).
Proof.
  intros (l & dom & He & Hl & Hd & Hs)%isValidEmail_split.
  exists l, dom. unfold emailDomainOf. rewrite Hs. done.
Qed.

Lemma isAllowedDomain_invalid email allowedDomains :
  isValidEmail email = false -> isAllowedDomain email allowedDomains = false.
Proof. intros H. unfold isAllowedDomain. by rewrite H, orb_true_r. Qed.

Lemma isAllowedDomain_unrestricted email allowedDomains :
  isValidEmail email = true -> nonEmptyAllowList allowedDomains = false ->
  isAllowedDomain email allowedDomains = true.
Proof.
  intros Hv Hn. unfold isAllowedDomain. rewrite Hv.
  rewrite bool_decide_eq_false_2 by by apply isValidEmail_nonempty.
  simpl. destruct allowedDomains as [[|d ds]|]; done.
Qed.

Lemma isAllowedDomain_restricted email domains :
  isValidEmail email = true -> domains <> [] ->
  (isAllowedDomain email (Some domains) = true <->
   exists l dom entry,
     email = l ++ "@"%char :: dom /\ entry ∈ domains /\ domainMatches dom entry).
Proof.
  intros Hv Hne.
  destruct (emailDomainOf_valid _ Hv) as (l & dom & He & Hl & Hd & Hdom).
  unfold isAllowedDomain. rewrite Hv, Hdom.
  rewrite bool_decide_eq_false_2 by by apply isValidEmail_nonempty.
  simpl. destruct domains as [|d0 ds]; [done|]. simpl length. simpl Nat.eqb.
  cbv iota. rewrite existsb_exists. split.
  - intros (entry & Hin & Hm). exists l, dom, entry.
    split; [done|]. split; [by apply list_elem_of_In|].
    apply orb_true_iff in Hm as [Hm|Hm].
    + left. by apply bool_decide_eq_true in Hm.
    + right. by apply bool_decide_eq_true in Hm.
  - intros (l' & dom' & entry & He' & Hin & Hm).
    rewrite He in He'.
    destruct (JsStringFacts.app_sep_unique _ _ _ _ _ Hl Hd He') as [<- <-].
    exists entry. split; [by apply list_elem_of_In|].
    apply orb_true_iff. destruct Hm as [Hm|Hm].
    + left. by apply bool_decide_eq_true.
    + right. by apply bool_decide_eq_true.
Qed.

(** ** Bulk parsing: the code against the specification's reading *)

Module BulkFacts.
Import BulkSpec.

Lemma isSpace_isBulkSep c : JsString.isSpace c = true -> isBulkSep c = true.
Proof. unfold isBulkSep. intros ->. by rewrite !orb_true_r. Qed.

Lemma Forall_not_sep_not_space s :
  Forall (fun c => isBulkSep c = false) s ->
  Forall (fun c => JsString.isSpace c = false) s.
Proof.
  intros H. eapply Forall_impl; [exact H|]. simpl. intros c Hc.
  destruct (JsString.isSpace c) eqn:Hs; [|done].
  by rewrite (isSpace_isBulkSep _ Hs) in Hc.
Qed.

(** The pieces of [split] hold no separator, so [trim] changes nothing,
    and only the first and last piece can be empty. *)
Lemma splitRuns_words inRun cur s :
  Forall (fun c => isBulkSep c = false) cur ->
  (inRun = true -> cur = []) ->
  filter (fun email : jstring => (0 < length email)%nat)
    ((fun email => JsString.toLowerCase (JsString.trim email))
       <$> JsString.splitRunsFrom isBulkSep inRun cur s)
  = JsString.toLowerCase <$> words isBulkSep cur s.
Proof.
  revert inRun cur. induction s as [|c s IH]; intros inRun cur Hcur Hrun; simpl.
  - rewrite JsStringFacts.trim_id by by apply Forall_not_sep_not_space.
    destruct cur; [done|]. rewrite filter_cons_True; [done|]. simpl. lia.
  - destruct (isBulkSep c) eqn:Hc.
    + destruct inRun.
      * rewrite (Hrun eq_refl). by apply IH.
      * rewrite fmap_cons.
        rewrite JsStringFacts.trim_id by by apply Forall_not_sep_not_space.
        destruct cur as [|x cur].
        -- rewrite filter_cons_False by (simpl; lia). by apply IH.
        -- rewrite filter_cons_True by (simpl; lia).
           rewrite fmap_cons. f_equal. by apply IH.
    + apply IH; [|done]. apply Forall_app. split; [done|]. by constructor.
Qed.

Lemma bulkTokens_tokens input : bulkTokens input = tokens input.
Proof. unfold bulkTokens, tokens, JsString.splitRuns. by apply splitRuns_words. Qed.

Lemma bucket_cons b t b' cl :
  bucket b ((t, b') :: cl) = if decide (b' = b) then t :: bucket b cl else bucket b cl.
Proof.
  unfold bucket. rewrite filter_cons. simpl.
  destruct (decide (b' = b)); done.
Qed.

(** The [forEach] of the code, started anywhere, adds to the result
    object the buckets of the specification, as long as the [seen] set
    holds the tokens classified valid so far. *)
Lemma bulk_fold allowedDomains toks :
  forall res (seen : gset jstring) earlier,
    (forall x, x ∈ seen <-> x ∈ earlier) ->
    (foldl (bulkStep allowedDomains) (res, seen) toks).1
    = appendBulk res (results (classifyAll allowedDomains earlier toks)).
Proof.
  induction toks as [|t toks IH]; intros res seen earlier Hseen.
  - destruct res. unfold appendBulk, results, bucket. simpl.
    by rewrite !app_nil_r.
  - simpl foldl. simpl classifyAll. unfold classify.
    rewrite (bool_decide_ext (t ∈ seen) (t ∈ earlier)) by apply Hseen.
    destruct (negb (isValidEmail t)).
    { rewrite (IH _ seen earlier Hseen). unfold appendBulk, results. simpl.
      rewrite !bucket_cons. simpl. by rewrite <- app_assoc. }
    destruct (bool_decide (t ∈ earlier)).
    { rewrite (IH _ seen earlier Hseen). unfold appendBulk, results. simpl.
      rewrite !bucket_cons. simpl. by rewrite <- app_assoc. }
    destruct (negb (isAllowedDomain t allowedDomains)
              && nonEmptyAllowList allowedDomains).
    { rewrite (IH _ seen earlier Hseen). unfold appendBulk, results. simpl.
      rewrite !bucket_cons. simpl. by rewrite <- app_assoc. }
    rewrite (IH _ ({[t]} ∪ seen) (earlier ++ [t])).
    + unfold appendBulk, results. simpl.
      rewrite !bucket_cons. simpl. by rewrite <- app_assoc.
    + intros x. rewrite elem_of_union, elem_of_singleton, elem_of_app,
        list_elem_of_singleton, Hseen. tauto.
Qed.

Lemma parseBulkEmails_parse input allowedDomains :
  parseBulkEmails input allowedDomains = parse input allowedDomains.
Proof.
  unfold parseBulkEmails, parse. case_bool_decide as Hin.
  - subst input. done.
  - rewrite bulkTokens_tokens.
    rewrite (bulk_fold _ _ emptyBulk ∅ []) by set_solver.
    unfold appendBulk. simpl. done.
Qed.

(** *** The classes of the specification *)

Lemma classifyAll_fst allowedDomains toks :
  forall earlier, (classifyAll allowedDomains earlier toks).*1 = toks.
Proof. induction toks as [|t toks IH]; intros earlier; simpl; [done|]. by rewrite IH. Qed.

Lemma elem_of_bucket b x cl : x ∈ bucket b cl <-> (x, b) ∈ cl.
Proof.
  unfold bucket. rewrite list_elem_of_fmap. split.
  - intros ([y b'] & -> & [Hb Hin]%list_elem_of_filter). simpl in *. by subst.
  - intros Hin. exists (x, b). split; [done|]. by apply list_elem_of_filter.
Qed.

(** Every token goes to one bucket. *)
Lemma buckets_permutation (cl : list (jstring * Bucket)) :
  bucket Valid cl ++ bucket Invalid cl ++ bucket Duplicate cl
    ++ bucket Restricted cl ≡ₚ cl.*1.
Proof.
  induction cl as [|[t b] cl IH]; [done|].
  rewrite !bucket_cons, fmap_cons. simpl fst.
  etrans; [|apply perm_skip, IH].
  destruct b; simpl.
  - symmetry. apply Permutation_middle.
  - rewrite !(app_assoc (bucket Valid cl) (bucket Invalid cl)).
    symmetry. apply Permutation_middle.
  - rewrite !(app_assoc (bucket Invalid cl) (bucket Duplicate cl)).
    rewrite !(app_assoc (bucket Valid cl) (bucket Invalid cl ++ _)).
    symmetry. apply Permutation_middle.
  - done.
Qed.

Lemma classify_ok allowedDomains earlier t :
  classOK allowedDomains t (classify allowedDomains earlier t).
Proof.
  unfold classify. destruct (isValidEmail t) eqn:Hv; simpl; [|done].
  case_bool_decide; simpl; [done|].
  destruct (isAllowedDomain t allowedDomains) eqn:Ha; simpl; [by auto|].
  destruct (nonEmptyAllowList allowedDomains) eqn:Hn; simpl; auto.
Qed.

Lemma classifyAll_ok allowedDomains toks :
  forall earlier t b,
    (t, b) ∈ classifyAll allowedDomains earlier toks -> classOK allowedDomains t b.
Proof.
  induction toks as [|t0 toks IH]; intros earlier t b; simpl.
  - by intros ?%elem_of_nil.
  - intros [Heq|Hin]%elem_of_cons; [|by eapply IH].
    injection Heq as -> ->. apply classify_ok.
Qed.

Lemma bucket_invalid allowedDomains toks :
  forall earlier,
    bucket Invalid (classifyAll allowedDomains earlier toks)
    = filter (fun t => isValidEmail t = false) toks.
Proof.
  induction toks as [|t toks IH]; intros earlier; simpl; [done|].
  rewrite bucket_cons, filter_cons, IH.
  pose proof (classify_ok allowedDomains earlier t) as Hok.
  destruct (classify allowedDomains earlier t) eqn:Hc; simpl in *;
    repeat case_decide; try done; intuition congruence.
Qed.

Lemma classify_duplicate allowedDomains earlier t :
  classify allowedDomains earlier t = Duplicate -> t ∈ earlier.
Proof.
  unfold classify. destruct (negb (isValidEmail t)); [done|].
  case_bool_decide; [done|].
  by destruct (negb (isAllowedDomain t allowedDomains)
               && nonEmptyAllowList allowedDomains).
Qed.

Lemma classify_valid_fresh allowedDomains earlier t :
  classify allowedDomains earlier t = Valid -> t ∉ earlier.
Proof.
  unfold classify. destruct (negb (isValidEmail t)); [done|].
  case_bool_decide; done.
Qed.

(** A duplicate repeats a token classified valid before it. *)
Lemma bucket_duplicate_valid allowedDomains toks :
  forall earlier x,
    x ∈ bucket Duplicate (classifyAll allowedDomains earlier toks) ->
    x ∈ earlier \/ x ∈ bucket Valid (classifyAll allowedDomains earlier toks).
Proof.
  induction toks as [|t toks IH]; intros earlier x; simpl.
  - by intros ?%elem_of_nil.
  - rewrite !bucket_cons.
    destruct (classify allowedDomains earlier t) eqn:Hc; simpl;
      try (by apply IH).
    + intros [->|Hx]%elem_of_cons; [|by apply IH].
      left. by eapply classify_duplicate.
    + intros Hx.
      destruct (IH _ _ Hx) as [[?| ->%list_elem_of_singleton]%elem_of_app|?].
      * by left.
      * right. by left.
      * right. by right.
Qed.

(** No token is classified valid twice. *)
Lemma bucket_valid_NoDup allowedDomains toks :
  forall earlier,
    NoDup earlier ->
    NoDup (earlier ++ bucket Valid (classifyAll allowedDomains earlier toks)).
Proof.
  induction toks as [|t toks IH]; intros earlier Hnd; simpl.
  - by rewrite app_nil_r.
  - rewrite bucket_cons.
    destruct (classify allowedDomains earlier t) eqn:Hc; simpl;
      try (by apply IH).
    rewrite cons_middle, app_assoc. apply IH.
    apply NoDup_app. split; [done|]. split; [|apply NoDup_singleton].
    intros y Hy ->%list_elem_of_singleton.
    by apply (classify_valid_fresh _ _ _ Hc).
Qed.

End BulkFacts.

(** ** Batch validation *)

Lemma normalizeEmails_valid emails :
  Forall (fun email => isValidEmail email = true) (normalizeEmails emails).
Proof.
  unfold normalizeEmails. destruct (negb (Js.truthy emails)); [constructor|].
  destruct emails; try constructor;
    apply Forall_forall; intros x [[_ Hx] _]%list_elem_of_filter; done.
Qed.

Lemma batch_fold allowedDomains l :
  Forall (fun email => isValidEmail email = true) l ->
  forall res,
    foldl (batchStep allowedDomains) res l
    = mkBatch
        (batchValid res
           ++ filter (fun e => isAllowedDomain e allowedDomains = true) l)
        (batchInvalid res)
        (batchDomainRestricted res
           ++ filter (fun e => isAllowedDomain e allowedDomains = false) l).
Proof.
  induction 1 as [|e l He _ IH]; intros res; simpl.
  - destruct res. simpl. by rewrite !app_nil_r.
  - rewrite IH. unfold batchStep. rewrite He. simpl.
    rewrite !filter_cons.
    destruct (isAllowedDomain e allowedDomains) eqn:Ha; simpl;
      repeat case_decide; try done; by rewrite <- app_assoc.
Qed.

Lemma filter_split_permutation (P : jstring -> bool) (l : list jstring) :
  filter (fun e => P e = true) l ++ filter (fun e => P e = false) l ≡ₚ l.
Proof.
  induction l as [|e l IH]; [done|]. rewrite !filter_cons.
  destruct (P e); repeat case_decide; try done; simpl.
  - by rewrite IH.
  - rewrite <- Permutation_middle. by rewrite IH.
Qed.

(** C10.  Whatever the input and the allow-list, [validateEmailBatch]
    returns an empty [invalid] bucket: the emails it classifies come out
    of [normalizeEmails], which keeps syntactically valid emails only.
    Nothing is de-duplicated: [valid] and [domainRestricted] are the
    normalized emails, each as often as it occurs and in order, split by
    the domain test; a repeated email is returned twice. *)
Theorem validateEmailBatch_invalid_empty (emails : JsVal) (allowedDomains : allowList) :
  batchInvalid (validateEmailBatch emails allowedDomains) = []
  /\ batchValid (validateEmailBatch emails allowedDomains)
     = filter (fun e => isAllowedDomain e allowedDomains = true)
         (normalizeEmails emails)
  /\ batchDomainRestricted (validateEmailBatch emails allowedDomains)
     = filter (fun e => isAllowedDomain e allowedDomains = false)
         (normalizeEmails emails)
  /\ batchValid (validateEmailBatch emails allowedDomains)
       ++ batchDomainRestricted (validateEmailBatch emails allowedDomains)
     ≡ₚ normalizeEmails emails
  /\ validateEmailBatch (JStr (js "a@x.com, A@X.com ,bad,a@x.com")) None
     = mkBatch [js "a@x.com"; js "a@x.com"; js "a@x.com"] [] [].
Proof.
  unfold validateEmailBatch.
  rewrite (batch_fold _ _ (normalizeEmails_valid emails)). simpl.
  repeat split; try done.
  apply (filter_split_permutation (fun e => isAllowedDomain e allowedDomains)).
Qed.

(** ** Bulk parsing: the claims *)

(** C3.  [parseBulkEmails] computes what the specification words say:
    the input is cut at every run of comma, semicolon, newline and white
    space, the pieces are lower-cased and the empty ones dropped, and each
    token is classified in input order as invalid, else duplicate of a
    token already classified valid, else domain-restricted, else valid
    ([BulkSpec.parse]).  The [invalid] bucket holds every malformed token
    as often as it occurs, so a malformed token is never in [duplicates].
    The sample of the specification evaluates as stated. *)
Theorem parseBulkEmails_spec (input : jstring) (allowedDomains : allowList) :
  parseBulkEmails input allowedDomains = BulkSpec.parse input allowedDomains
  /\ invalid (parseBulkEmails input allowedDomains)
     = filter (fun t => isValidEmail t = false) (BulkSpec.tokens input)
  /\ (forall t, isValidEmail t = false ->
        t ∉ duplicates (parseBulkEmails input allowedDomains))
  /\ parseBulkEmails (js "a@x.com; a@x.com, bad, b@y.org") None
     = mkBulk [js "a@x.com"; js "b@y.org"] [js "bad"] [js "a@x.com"] [].
Proof.
  rewrite BulkFacts.parseBulkEmails_parse. unfold BulkSpec.parse. simpl.
  split; [done|]. split; [apply BulkFacts.bucket_invalid|].
  split; [|by vm_compute].
  intros t Ht Hin. apply BulkFacts.elem_of_bucket in Hin.
  apply BulkFacts.classifyAll_ok in Hin. simpl in Hin. congruence.
Qed.

Lemma parseBulkEmails_spec_witness :
  isValidEmail (js "bad") = false
  /\ js "bad" ∉ duplicates (parseBulkEmails (js "bad, bad; a@x.com a@x.com") None).
Proof.
  split; [by vm_compute|].
  apply (proj1 (proj2 (proj2 (parseBulkEmails_spec
           (js "bad, bad; a@x.com a@x.com") None)))).
  by vm_compute.
Defined.

(** The tokens of the specification are non-empty, hold no separator and
    are in lower case already. *)
Lemma words_no_sep sep cur s :
  Forall (fun c => sep c = false) cur ->
  Forall (fun w => w <> [] /\ Forall (fun c => sep c = false) w)
    (BulkSpec.words sep cur s).
Proof.
  revert cur. induction s as [|c s IH]; intros cur Hcur; simpl.
  - destruct cur; constructor; [done|constructor].
  - destruct (sep c) eqn:Hc.
    + destruct cur; [by apply IH|]. constructor; [done|]. by apply IH.
    + apply IH. apply Forall_app. split; [done|]. by constructor.
Qed.

(** C4, as stated, fails on the sample of the specification: the email
    that repeats is in [valid] and in [duplicates]. *)
Lemma parseBulkEmails_buckets_overlap :
  ~ bucketsPairwiseDisjoint
      (parseBulkEmails (js "a@x.com; a@x.com, bad, b@y.org") None).
Proof.
  intros (_ & H & _). apply (H (js "a@x.com")); vm_compute; by left.
Qed.

(** C4 (amended).  The four buckets together are the tokens of the
    input, each occurrence in exactly one bucket (a permutation).  As
    lists of strings, [invalid], [domainRestricted] and [valid] are
    pairwise disjoint and [duplicates] is disjoint from [invalid] and
    from [domainRestricted]; every entry of [duplicates] is also an entry
    of [valid], which holds no email twice. *)
Theorem parseBulkEmails_partition (input : jstring) (allowedDomains : allowList) :
  valid (parseBulkEmails input allowedDomains)
    ++ invalid (parseBulkEmails input allowedDomains)
    ++ duplicates (parseBulkEmails input allowedDomains)
    ++ domainRestricted (parseBulkEmails input allowedDomains)
  ≡ₚ bulkTokens input
  /\ (forall x, x ∈ invalid (parseBulkEmails input allowedDomains) ->
        (x ∉ valid (parseBulkEmails input allowedDomains))
        /\ (x ∉ duplicates (parseBulkEmails input allowedDomains))
        /\ (x ∉ domainRestricted (parseBulkEmails input allowedDomains)))
  /\ (forall x, x ∈ domainRestricted (parseBulkEmails input allowedDomains) ->
        (x ∉ valid (parseBulkEmails input allowedDomains))
        /\ (x ∉ duplicates (parseBulkEmails input allowedDomains)))
  /\ (forall x, x ∈ duplicates (parseBulkEmails input allowedDomains) ->
        x ∈ valid (parseBulkEmails input allowedDomains))
  /\ NoDup (valid (parseBulkEmails input allowedDomains)).
Proof.
  rewrite BulkFacts.parseBulkEmails_parse, BulkFacts.bulkTokens_tokens.
  unfold BulkSpec.parse. simpl.
  set (cl := BulkSpec.classifyAll allowedDomains [] (BulkSpec.tokens input)).
  assert (forall x b, x ∈ BulkSpec.bucket b cl -> BulkSpec.classOK allowedDomains x b)
    as Hok.
  { intros x b Hx%BulkFacts.elem_of_bucket. by eapply BulkFacts.classifyAll_ok. }
  assert (forall x, x ∈ BulkSpec.bucket BulkSpec.Duplicate cl ->
                    x ∈ BulkSpec.bucket BulkSpec.Valid cl) as Hdup.
  { intros x Hx. destruct (BulkFacts.bucket_duplicate_valid _ _ _ _ Hx) as [H|H];
      [by apply elem_of_nil in H | done]. }
  split.
  { rewrite BulkFacts.buckets_permutation. unfold cl.
    by rewrite BulkFacts.classifyAll_fst. }
  split.
  { intros x Hi. apply Hok in Hi. simpl in Hi.
    repeat split; intros Hx; try apply Hdup in Hx; apply Hok in Hx;
      simpl in Hx; intuition congruence. }
  split.
  { intros x Hr. apply Hok in Hr. simpl in Hr.
    repeat split; intros Hx; try apply Hdup in Hx; apply Hok in Hx;
      simpl in Hx; intuition congruence. }
  split; [done|].
  apply (BulkFacts.bucket_valid_NoDup allowedDomains (BulkSpec.tokens input) []).
  constructor.
Qed.

Lemma parseBulkEmails_partition_witness :
  js "bad" ∈ invalid (parseBulkEmails (js "a@x.com; a@x.com, bad, b@y.org") None)
  /\ js "bad" ∉ valid (parseBulkEmails (js "a@x.com; a@x.com, bad, b@y.org") None).
Proof.
  assert (js "bad"
          ∈ invalid (parseBulkEmails (js "a@x.com; a@x.com, bad, b@y.org") None))
    as Hin by (vm_compute; by left).
  split; [exact Hin|].
  exact (proj1 (proj1 (proj2 (parseBulkEmails_partition
           (js "a@x.com; a@x.com, bad, b@y.org") None)) (js "bad") Hin)).
Defined.

(** ** Domain allow-list: the claims *)

(** C5, as stated, fails: with an empty or absent allow-list, a string
    that is not a valid email is refused. *)
Lemma isAllowedDomain_invalid_email_refused :
  isAllowedDomain (js "not-an-email") (Some []) = false
  /\ isAllowedDomain (js "not-an-email") None = false
  /\ isAllowedDomain (js "a b@example.com") (Some [js "example.com"]) = false.
Proof. by vm_compute. Qed.

(** C5 (amended).  An email that [isValidEmail] refuses is refused
    whatever the allow-list.  For an email that [isValidEmail] accepts:
    with an empty or absent allow-list the result is true; otherwise it is
    true iff the part of the email after its [@], lower-cased, equals a
    lower-cased entry or ends with a dot followed by a lower-cased entry.
    The two samples of the specification evaluate as stated. *)
Theorem isAllowedDomain_spec (email : jstring) (allowedDomains : allowList) :
  (isValidEmail email = false -> isAllowedDomain email allowedDomains = false)
  /\ (isValidEmail email = true ->
      match allowedDomains with
      | None | Some [] => isAllowedDomain email allowedDomains = true
      | Some domains =>
          isAllowedDomain email allowedDomains = true <->
          exists l dom entry,
            email = l ++ "@"%char :: dom /\ entry ∈ domains
            /\ domainMatches dom entry
      end)
  /\ isAllowedDomain (js "u@sub.example.com") (Some [js "example.com"]) = true
  /\ isAllowedDomain (js "u@other.com") (Some [js "example.com"]) = false.
Proof.
  split; [apply isAllowedDomain_invalid|].
  split; [|by vm_compute].
  intros Hv. destruct allowedDomains as [[|d ds]|].
  - by apply isAllowedDomain_unrestricted.
  - by apply isAllowedDomain_restricted.
  - by apply isAllowedDomain_unrestricted.
Qed.

Lemma isAllowedDomain_spec_witness :
  isValidEmail (js "u@sub.example.com") = true
  /\ exists l dom entry,
      js "u@sub.example.com" = l ++ "@"%char :: dom
      /\ entry ∈ [js "example.com"] /\ domainMatches dom entry.
Proof.
  assert (isValidEmail (js "u@sub.example.com") = true) as Hv by (by vm_compute).
  split; [exact Hv|].
  apply (proj1 (proj1 (proj2 (isAllowedDomain_spec (js "u@sub.example.com")
                                (Some [js "example.com"]))) Hv)).
  by vm_compute.
Defined.

(** ** Notification facade *)

(** Unfolds one layer of the monad. *)
Ltac run :=
  repeat (unfold mbind, mret, M_bind, M_ret, tryCatch, throw, callApi,
            consoleError, consoleLog, getProp, getManager, setManager,
            setInterval, clearInterval, ignore in *;
          simpl in * ).

Section FacadeFacts.
Context {Backend : Type} (api : ApiClient Backend).

Lemma runFacade_success op s result b' :
  clientCall api op (backend s) = (Ret result, b') ->
  runFacade api op s
  = (Ret (JObj [("success", JBool true); ("data", successData op result);
                ("error", JNull)]),
     afterCall s b' []).
Proof.
  intros H. unfold afterCall. rewrite app_nil_r.
  destruct op; simpl in *;
    unfold getNotifications, createNotification, markNotificationAsRead,
      markAllNotificationsAsRead, deleteNotification, getNotificationStats;
    run; rewrite H; done.
Qed.

Lemma runFacade_failure op s e b' :
  clientCall api op (backend s) = (Throw e, b') ->
  Js.nullish e = false ->
  runFacade api op s
  = (Ret (match op with
          | OpGetNotifications _ =>
              JObj [("success", JBool false); ("data", JArr []);
                    ("error", Js.getField e "message")]
          | _ => JObj [("success", JBool false);
                       ("error", Js.getField e "message")]
          end),
     afterCall s b' [LogError (failureMessage op) e]).
Proof.
  intros H He. unfold afterCall.
  destruct op; simpl in *;
    unfold getNotifications, createNotification, markNotificationAsRead,
      markAllNotificationsAsRead, deleteNotification, getNotificationStats;
    run; rewrite H; simpl; rewrite He; done.
Qed.

(** A client that throws [null] or [undefined] defeats the [catch]:
    reading [error.message] throws in its turn. *)
Lemma runFacade_failure_nullish op s e b' :
  clientCall api op (backend s) = (Throw e, b') ->
  Js.nullish e = true ->
  runFacade api op s
  = (Throw (Js.cannotRead e "message"),
     afterCall s b' [LogError (failureMessage op) e]).
Proof.
  intros H He. unfold afterCall.
  destruct op; simpl in *;
    unfold getNotifications, createNotification, markNotificationAsRead,
      markAllNotificationsAsRead, deleteNotification, getNotificationStats;
    run; rewrite H; simpl; rewrite He; done.
Qed.

(** A facade call touches the backend and the console only. *)
Lemma runFacade_frame op s :
  exists b' logged, (runFacade api op s).2 = afterCall s b' logged.
Proof.
  destruct (clientCall api op (backend s)) as [[result|e] b'] eqn:H.
  - exists b', []. by rewrite (runFacade_success _ _ _ _ H).
  - exists b', [LogError (failureMessage op) e].
    destruct (Js.nullish e) eqn:He.
    + by rewrite (runFacade_failure_nullish _ _ _ _ H He).
    + by rewrite (runFacade_failure _ _ _ _ H He).
Qed.

(** The envelope of [getNotifications] is an object, whatever happens. *)
Lemma getNotifications_returns filters s env s' :
  getNotifications api filters s = (Ret env, s') -> Js.nullish env = false.
Proof.
  change (getNotifications api filters) with
    (runFacade api (OpGetNotifications filters)).
  destruct (clientCall api (OpGetNotifications filters) (backend s))
    as [[result|e] b'] eqn:H.
  - rewrite (runFacade_success _ _ _ _ H). by intros [= <- _].
  - destruct (Js.nullish e) eqn:He.
    + by rewrite (runFacade_failure_nullish _ _ _ _ H He).
    + rewrite (runFacade_failure _ _ _ _ H He). by intros [= <- _].
Qed.

End FacadeFacts.

(** C2, as stated, fails: the envelope of a [createNotification] that
    failed has no [data] at all. *)
Lemma createNotification_failure_has_no_data :
  exists env,
    (createNotification scriptedApi (JObj [("title", JStr (js "hello"))])
       (initSystem [Throw (Js.error "Request failed")])).1 = Ret env
    /\ Js.getField env "success" = JBool false
    /\ Js.hasField "data" env = false
    /\ ~ dataDefaulted env.
Proof.
  eexists. split; [by vm_compute|]. split; [done|]. split; [by vm_compute|].
  intros [H _]. by vm_compute in H.
Qed.

(** C2 (amended).  A facade call whose client call returns yields the
    envelope [{success: true, data, error: null}], where [data] is
    [result.data] if that is truthy and [result] otherwise (and [[]] in
    [getNotifications] when both are falsy).  When the client call throws
    an error, [getNotifications] yields
    [{success: false, data: [], error: message}]; the five other
    operations yield [{success: false, error: message}], an envelope
    without a [data] property. *)
Theorem facade_envelope {Backend : Type} (api : ApiClient Backend)
    (op : FacadeOp) (s : System Backend) :
  (forall result b',
      clientCall api op (backend s) = (Ret result, b') ->
      (runFacade api op s).1
      = Ret (JObj [("success", JBool true);
                   ("data", match op with
                            | OpGetNotifications _ =>
                                Js.or (Js.or (Js.optChain result "data") result)
                                  (JArr [])
                            | _ => Js.or (Js.optChain result "data") result
                            end);
                   ("error", JNull)]))
  /\ (forall e b',
        clientCall api op (backend s) = (Throw e, b') ->
        Js.nullish e = false ->
        (runFacade api op s).1
        = Ret (match op with
               | OpGetNotifications _ =>
                   JObj [("success", JBool false); ("data", JArr []);
                         ("error", Js.getField e "message")]
               | _ => JObj [("success", JBool false);
                            ("error", Js.getField e "message")]
               end)).
Proof.
  split.
  - intros result b' H. rewrite (runFacade_success _ _ _ _ _ H).
    by destruct op.
  - intros e b' H He. by rewrite (runFacade_failure _ _ _ _ _ H He).
Qed.

Lemma facade_envelope_witness :
  (runFacade scriptedApi OpGetNotificationStats
     (initSystem [Throw (Js.error "Request failed")])).1
  = Ret (JObj [("success", JBool false);
               ("error", JStr (js "Request failed"))]).
Proof.
  exact (proj2 (facade_envelope scriptedApi OpGetNotificationStats
                  (initSystem [Throw (Js.error "Request failed")]))
           (Js.error "Request failed") [] eq_refl eq_refl).
Defined.

(** C6, as stated, fails for a client that throws [null]: the [catch] of
    the operation logs, reads [error.message], and that read throws a
    [TypeError], which the operation propagates. *)
Lemma deleteNotification_rethrows_on_null :
  runFacade scriptedApi (OpDeleteNotification (JNum 7))
    (initSystem [Throw JNull])
  = (Throw (Js.typeError "Cannot read properties of null (reading 'message')"),
     afterCall (initSystem [Throw JNull]) []
       [LogError "Failed to delete notification:" JNull]).
Proof. by vm_compute. Qed.

(** C6 (amended).  Whatever the facade operation, and whatever its
    client call throws other than [null] and [undefined] (an error
    object, as the client's interface has it, or any other value), the
    operation returns: its result is an envelope with [success] false
    whose [error] is the [message] of the thrown value, and the error is
    logged. *)
Theorem facade_catches_errors {Backend : Type} (api : ApiClient Backend)
    (op : FacadeOp) (s : System Backend) (e : JsVal) (b' : Backend) :
  clientCall api op (backend s) = (Throw e, b') ->
  Js.nullish e = false ->
  exists env,
    runFacade api op s
    = (Ret env, afterCall s b' [LogError (failureMessage op) e])
    /\ Js.getField env "success" = JBool false
    /\ Js.getField env "error" = Js.getField e "message".
Proof.
  intros H He. eexists. split; [by apply runFacade_failure|].
  by destruct op.
Qed.

Lemma facade_catches_errors_witness :
  exists env,
    runFacade scriptedApi (OpDeleteNotification (JNum 7))
      (initSystem [Throw (Js.error "Not found")])
    = (Ret env,
       afterCall (initSystem [Throw (Js.error "Not found")]) []
         [LogError "Failed to delete notification:" (Js.error "Not found")])
    /\ Js.getField env "success" = JBool false
    /\ Js.getField env "error" = JStr (js "Not found").
Proof.
  exact (facade_catches_errors scriptedApi (OpDeleteNotification (JNum 7))
           (initSystem [Throw (Js.error "Not found")]) (Js.error "Not found") []
           eq_refl eq_refl).
Defined.

(** ** First-time users *)

Section FirstTimeFacts.
Context {Backend : Type} (api : ApiClient Backend).

Lemma isWelcomeEntry_object (n : JsVal) (s : System Backend) :
  Js.nullish n = false -> isWelcomeEntry n s = (Ret (flaggedWelcome n), s).
Proof.
  intros Hn. unfold isWelcomeEntry, flaggedWelcome, getProp, mbind, M_bind.
  rewrite Hn. unfold mret, M_ret.
  by destruct (Js.strictEq (Js.getField n "type") (JStr (js "welcome"))).
Qed.

(** [some] over entries that are objects: no exception, no effect. *)
Lemma someM_isWelcomeEntry (ns : list JsVal) (s : System Backend) :
  Forall (fun n => Js.nullish n = false) ns ->
  someM isWelcomeEntry ns s = (Ret (existsb flaggedWelcome ns), s).
Proof.
  induction 1 as [|n ns Hn _ IH]; [done|].
  cbn [someM existsb]. unfold mbind, M_bind.
  rewrite (isWelcomeEntry_object n s Hn).
  destruct (flaggedWelcome n); [done | exact IH].
Qed.

#[local] Arguments someM : simpl never.

(** When the fetch returns a list of notification objects, the answer is
    the one of the specification: true iff the list is empty or holds no
    entry flagged as a welcome notification. *)
Lemma checkFirstTimeUser_list (s : System Backend) (ns : list JsVal) b' :
  getAll api (JObj [("limit", JNum 1)]) (backend s) = (Ret (JArr ns), b') ->
  Forall (fun n => Js.nullish n = false) ns ->
  checkFirstTimeUser api s
  = (Ret (bool_decide (ns = []) || negb (existsb flaggedWelcome ns)),
     afterCall s b' []).
Proof.
  intros H Hns. unfold checkFirstTimeUser.
  unfold tryCatch at 1. unfold mbind at 1, M_bind at 1.
  change (getNotifications api (JObj [("limit", JNum 1)])) with
    (runFacade api (OpGetNotifications (JObj [("limit", JNum 1)]))).
  rewrite (runFacade_success api
             (OpGetNotifications (JObj [("limit", JNum 1)])) _ _ _ H).
  run. destruct ns as [|n ns]; [done|]. simpl.
  rewrite someM_isWelcomeEntry by done. done.
Qed.

(** When the fetch throws an error, [getNotifications] has already turned
    it into an envelope with [data: []]: the answer is true, and the
    [catch] of [checkFirstTimeUser] is not entered. *)
Lemma checkFirstTimeUser_fetch_throws (s : System Backend) (e : JsVal) b' :
  getAll api (JObj [("limit", JNum 1)]) (backend s) = (Throw e, b') ->
  Js.nullish e = false ->
  checkFirstTimeUser api s
  = (Ret true,
     afterCall s b'
       [LogError "Failed to fetch notifications, falling back to mock:" e]).
Proof.
  intros H He. unfold checkFirstTimeUser.
  unfold tryCatch at 1. unfold mbind at 1, M_bind at 1.
  change (getNotifications api (JObj [("limit", JNum 1)])) with
    (runFacade api (OpGetNotifications (JObj [("limit", JNum 1)]))).
  rewrite (runFacade_failure api
             (OpGetNotifications (JObj [("limit", JNum 1)])) _ _ _ H He).
  done.
Qed.

Lemma stateless_ret {A : Type} (a : A) : stateless (mret a : M Backend A).
Proof. intros s. by eexists. Qed.

Lemma stateless_throw {A : Type} (e : JsVal) :
  stateless (throw e : M Backend A).
Proof. intros s. by eexists. Qed.

Lemma stateless_bind {A B : Type} (m : M Backend A) (k : A -> M Backend B) :
  stateless m -> (forall a, stateless (k a)) -> stateless (m ≫= k).
Proof.
  intros Hm Hk s. unfold mbind, M_bind. destruct (Hm s) as [[a|e] ->].
  - apply Hk.
  - by eexists.
Qed.

Lemma stateless_getProp v k : stateless (getProp v k : M Backend JsVal).
Proof.
  unfold getProp. destruct (Js.nullish v);
    [apply stateless_throw | apply stateless_ret].
Qed.

Lemma stateless_isWelcomeEntry n :
  stateless (isWelcomeEntry n : M Backend bool).
Proof.
  unfold isWelcomeEntry. apply stateless_bind; [apply stateless_getProp|].
  intros type. destruct (Js.strictEq _ _); [apply stateless_ret|].
  apply stateless_bind; [apply stateless_getProp|].
  intros metadata. apply stateless_ret.
Qed.

Lemma stateless_someM {A : Type} (pred : A -> M Backend bool) l :
  (forall x, stateless (pred x)) -> stateless (someM pred l).
Proof.
  intros Hp. induction l as [|x l IH]; cbn [someM]; [apply stateless_ret|].
  apply stateless_bind; [apply Hp|].
  intros [|]; [apply stateless_ret | apply IH].
Qed.

Lemma stateless_arraySome v :
  stateless (arraySome (Backend:=Backend) v isWelcomeEntry).
Proof.
  destruct v; try apply stateless_throw.
  apply stateless_someM, stateless_isWelcomeEntry.
Qed.

Lemma afterCall_afterCall (s : System Backend) b l b' l' :
  afterCall (afterCall s b l) b' l' = afterCall s b' (l ++ l').
Proof. unfold afterCall. simpl. by rewrite app_assoc. Qed.

Lemma consoleError_afterCall (s : System Backend) b l msg e :
  consoleError msg e (afterCall s b l)
  = (Ret tt, afterCall s b (l ++ [LogError msg e])).
Proof. unfold consoleError, afterCall. simpl. by rewrite app_assoc. Qed.

(** [checkFirstTimeUser] always returns, and touches the backend and the
    console only. *)
Lemma checkFirstTimeUser_frame (s : System Backend) :
  exists r b' logged, checkFirstTimeUser api s = (Ret r, afterCall s b' logged).
Proof.
  unfold checkFirstTimeUser.
  unfold tryCatch at 1. unfold mbind at 1, M_bind at 1.
  change (getNotifications api (JObj [("limit", JNum 1)])) with
    (runFacade api (OpGetNotifications (JObj [("limit", JNum 1)]))).
  destruct (runFacade_frame api (OpGetNotifications (JObj [("limit", JNum 1)])) s)
    as (b' & logged & Hs).
  destruct (runFacade api (OpGetNotifications (JObj [("limit", JNum 1)])) s)
    as [[result|e] s1]. all: simpl in Hs; subst s1.
  - match goal with
    | |- context [ (?m ≫= ?k) (afterCall s b' logged) ] =>
        assert (stateless (m ≫= k)) as Hk
    end.
    { apply stateless_bind; [apply stateless_getProp|]. intros data.
      apply stateless_bind; [apply stateless_getProp|]. intros len.
      destruct (Js.strictEq len (JNum 0)); [apply stateless_ret|].
      apply stateless_bind; [apply stateless_arraySome|]. intros h.
      apply stateless_ret. }
    destruct (Hk (afterCall s b' logged)) as [[r|e] ->].
    + by exists r, b', logged.
    + unfold mbind, M_bind. rewrite consoleError_afterCall. by eexists _, _, _.
  - unfold mbind, M_bind. rewrite consoleError_afterCall. by eexists _, _, _.
Qed.

End FirstTimeFacts.

(** C1.  The specification has [checkFirstTimeUser] answer false when the
    fetch fails, and the [catch] of the function returns false; but the
    failure never reaches it.  With a client whose [getAll] throws a
    network error, [getNotifications] returns the envelope with
    [data: []], the list is empty, and the answer is true. *)
Theorem checkFirstTimeUser_fetch_failure :
  checkFirstTimeUser scriptedApi (initSystem [Throw (Js.error "Network Error")])
  = (Ret true,
     afterCall (initSystem [Throw (Js.error "Network Error")]) []
       [LogError "Failed to fetch notifications, falling back to mock:"
          (Js.error "Network Error")]).
Proof. by apply checkFirstTimeUser_fetch_throws. Qed.

Example checkFirstTimeUser_samples :
  (checkFirstTimeUser scriptedApi (initSystem [Ret (JArr [])])).1 = Ret true
  /\ (checkFirstTimeUser scriptedApi
        (initSystem [Ret (JArr [welcomeNotification])])).1 = Ret false
  /\ (checkFirstTimeUser scriptedApi
        (initSystem [Ret (JObj [("data",
           JArr [JObj [("type", JStr (js "task_assigned"))]])])])).1 = Ret true
  /\ (checkFirstTimeUser scriptedApi (initSystem [Throw JNull])).1 = Ret false.
Proof. by vm_compute. Qed.

(** ** NotificationManager *)

Section ManagerFacts.
Context {Backend : Type} (api : ApiClient Backend).
Context (callbacks : nat -> JsVal -> option JsVal).

Lemma getProp_object (v : JsVal) (k : string) (s : System Backend) :
  Js.nullish v = false -> getProp v k s = (Ret (Js.getField v k), s).
Proof. intros H. unfold getProp. by rewrite H. Qed.

(** The fan-out visits the whole list whatever the listeners do. *)
Lemma forEach_listeners (l : list nat) :
  forall s : System Backend,
    forEach
      (fun callback =>
         tryCatch (invoke callbacks callback)
           (fun error => consoleError "Error in notification listener:" error))
      l s
    = (Ret tt,
       mkSystem (manager s) (backend s)
         (console s ++ listenerErrors callbacks (notifications (manager s)) l)
         (calls s ++ invocations (notifications (manager s)) l)
         (intervals s) (nextTimer s)).
Proof.
  induction l as [|cb l IH]; intros s.
  - simpl. unfold invocations, listenerErrors. simpl.
    rewrite !app_nil_r. by destruct s.
  - cbn [forEach]. unfold mbind at 1, M_bind at 1.
    unfold tryCatch at 1, invoke at 1, consoleError at 1.
    unfold listenerErrors, invocations. cbn [omap list_omap fmap list_fmap].
    destruct (callbacks cb (notifications (manager s))) as [e|]; cbn [fmap option_fmap option_map].
    + rewrite IH. simpl. unfold listenerErrors, invocations.
      by rewrite <- !app_assoc.
    + rewrite IH. simpl. unfold listenerErrors, invocations.
      by rewrite <- !app_assoc.
Qed.

Lemma notifyListeners_run (s : System Backend) :
  notifyListeners callbacks s
  = (Ret tt,
     mkSystem (manager s) (backend s)
       (console s
          ++ listenerErrors callbacks (notifications (manager s))
               (listeners (manager s)))
       (calls s
          ++ invocations (notifications (manager s)) (listeners (manager s)))
       (intervals s) (nextTimer s)).
Proof.
  unfold notifyListeners, mbind, M_bind, getManager. apply forEach_listeners.
Qed.

(** A tick never throws. *)
Lemma pollTick_returns (s : System Backend) :
  exists s', pollTick api callbacks s = (Ret tt, s').
Proof.
  unfold pollTick, tryCatch.
  match goal with |- context [ let (_, _) := ?m s in _ ] => destruct (m s) as [[[]|e] s1] end.
  - by eexists.
  - unfold consoleError. by eexists.
Qed.

(** A tick whose fetch fails: nothing but the facade's own effects. *)
Lemma pollTick_failure (s s1 : System Backend) (env : JsVal) :
  getNotifications api JUndefined s = (Ret env, s1) ->
  Js.truthy (Js.getField env "success") = false ->
  pollTick api callbacks s = (Ret tt, s1).
Proof.
  intros H Hs. pose proof (getNotifications_returns _ _ _ _ _ H) as Hn.
  unfold pollTick, tryCatch, mbind, M_bind. rewrite H.
  rewrite (getProp_object _ _ _ Hn). by rewrite Hs.
Qed.

(** A tick whose fetch succeeds: the cache is replaced and every listener
    is called with the new notifications. *)
Lemma pollTick_success (s s1 : System Backend) (env : JsVal) :
  getNotifications api JUndefined s = (Ret env, s1) ->
  Js.truthy (Js.getField env "success") = true ->
  pollTick api callbacks s
  = (Ret tt,
     mkSystem
       (mkManager (listeners (manager s1)) (Js.getField env "data")
          (isPolling (manager s1)) (pollingInterval (manager s1)))
       (backend s1)
       (console s1
          ++ listenerErrors callbacks (Js.getField env "data")
               (listeners (manager s1)))
       (calls s1 ++ invocations (Js.getField env "data") (listeners (manager s1)))
       (intervals s1) (nextTimer s1)).
Proof.
  intros H Hs. pose proof (getNotifications_returns _ _ _ _ _ H) as Hn.
  unfold pollTick, tryCatch, mbind, M_bind. rewrite H.
  rewrite (getProp_object _ _ _ Hn). rewrite Hs.
  rewrite (getProp_object _ _ _ Hn). unfold getManager, setManager.
  by rewrite notifyListeners_run.
Qed.

Lemma startRealTime_polling (s : System Backend) :
  isPolling (manager s) = true -> startRealTime s = (Ret tt, s).
Proof. intros H. unfold startRealTime. run. by rewrite H. Qed.

Lemma startRealTime_idle (s : System Backend) :
  isPolling (manager s) = false ->
  startRealTime s
  = (Ret tt,
     mkSystem
       (mkManager (listeners (manager s)) (notifications (manager s)) true
          (Some (nextTimer s)))
       (backend s) (console s ++ [LogInfo "Real-time notifications started"])
       (calls s) (intervals s ++ [(nextTimer s, 30000%N)])
       (N.succ (nextTimer s))).
Proof. intros H. unfold startRealTime. run. by rewrite H. Qed.

Lemma startRealTime_inv (s : System Backend) :
  timerInv s -> timerInv (startRealTime s).2.
Proof.
  intros Hinv. destruct (isPolling (manager s)) eqn:Hp.
  - by rewrite startRealTime_polling.
  - rewrite startRealTime_idle by done.
    destruct Hinv as [Hn [[? _]|(_ & _ & Hi)]]; [congruence|].
    split; simpl; [lia|]. left. split; [done|].
    exists (nextTimer s). by rewrite Hi.
Qed.

Lemma stopRealTime_run (s : System Backend) :
  stopRealTime s
  = (Ret tt,
     mkSystem
       (mkManager (listeners (manager s)) (notifications (manager s)) false
          (if handleTruthy (pollingInterval (manager s)) then None
           else pollingInterval (manager s)))
       (backend s) (console s ++ [LogInfo "Real-time notifications stopped"])
       (calls s)
       (if handleTruthy (pollingInterval (manager s))
        then filter (fun t => t.1 <> default 0%N (pollingInterval (manager s)))
               (intervals s)
        else intervals s)
       (nextTimer s)).
Proof.
  unfold stopRealTime. run.
  by destruct (handleTruthy (pollingInterval (manager s))).
Qed.

Lemma stopRealTime_inv (s : System Backend) :
  timerInv s -> timerInv (stopRealTime s).2.
Proof.
  intros [Hn Hinv]. rewrite stopRealTime_run.
  split; [done|]. right. simpl.
  destruct Hinv as [(_ & id & Hid & Hp & Hi)|(_ & Hp & Hi)]; rewrite Hp, Hi; simpl.
  - apply N.eqb_neq in Hid as Hid'. rewrite Hid'. simpl.
    repeat split. rewrite filter_cons_False by (simpl; tauto). done.
  - done.
Qed.

(** The actions that leave the timers and the manager's flags alone. *)
Lemma timerInv_frame (s s' : System Backend) :
  isPolling (manager s') = isPolling (manager s) ->
  pollingInterval (manager s') = pollingInterval (manager s) ->
  intervals s' = intervals s -> nextTimer s' = nextTimer s ->
  timerInv s -> timerInv s'.
Proof. unfold timerInv. intros -> -> -> ->. done. Qed.

Lemma pollTick_inv (s : System Backend) :
  timerInv s -> timerInv (pollTick api callbacks s).2.
Proof.
  destruct (runFacade_frame api (OpGetNotifications JUndefined) s)
    as (b' & logged & Hs).
  simpl in Hs.
  destruct (getNotifications api JUndefined s) as [[env|e] s1] eqn:H;
    simpl in Hs; subst s1.
  - destruct (Js.truthy (Js.getField env "success")) eqn:Ht.
    + rewrite (pollTick_success _ _ _ H Ht). by apply timerInv_frame.
    + rewrite (pollTick_failure _ _ _ H Ht). by apply timerInv_frame.
  - unfold pollTick, tryCatch. unfold mbind at 1, M_bind at 1. rewrite H.
    by apply timerInv_frame.
Qed.

Lemma perform_inv (a : Action) (s : System Backend) :
  timerInv s -> timerInv (perform api callbacks a s).2.
Proof.
  destruct a; simpl.
  - apply startRealTime_inv.
  - apply stopRealTime_inv.
  - by apply timerInv_frame.
  - by apply timerInv_frame.
  - apply pollTick_inv.
  - unfold ignore, mbind, M_bind.
    destruct (runFacade_frame api op s) as (b' & logged & Hs).
    destruct (runFacade api op s) as [[r|e] s1]; simpl in Hs; subst s1;
      by apply timerInv_frame.
  - unfold ignore, mbind, M_bind.
    destruct (checkFirstTimeUser_frame api s) as (r & b' & logged & ->).
    by apply timerInv_frame.
Qed.

Lemma reachable_inv (s : System Backend) :
  reachable api callbacks s -> timerInv s.
Proof.
  induction 1 as [b|a s _ IH]; [|by apply perform_inv].
  split; [done|]. by right.
Qed.

End ManagerFacts.

(** C7.  The fan-out returns normally whatever the listeners do: every
    registered listener is called once, in order, with the manager's
    current notifications, also after a listener that throws; each
    exception is caught and logged on its own.  A poll tick never throws,
    and a tick whose fetch succeeds calls every listener with the fetched
    notifications. *)
Theorem notifyListeners_isolates_failures {Backend : Type}
    (api : ApiClient Backend) (callbacks : nat -> JsVal -> option JsVal)
    (s : System Backend) :
  (exists s',
      notifyListeners callbacks s = (Ret tt, s')
      /\ calls s'
         = calls s
             ++ invocations (notifications (manager s)) (listeners (manager s))
      /\ console s'
         = console s
             ++ listenerErrors callbacks (notifications (manager s))
                  (listeners (manager s))
      /\ manager s' = manager s)
  /\ (exists s', pollTick api callbacks s = (Ret tt, s'))
  /\ (forall env s1,
        getNotifications api JUndefined s = (Ret env, s1) ->
        Js.truthy (Js.getField env "success") = true ->
        exists s',
          pollTick api callbacks s = (Ret tt, s')
          /\ notifications (manager s') = Js.getField env "data"
          /\ calls s'
             = calls s
                 ++ invocations (Js.getField env "data") (listeners (manager s))).
Proof.
  split; [|split].
  - eexists. split; [apply notifyListeners_run|]. done.
  - apply pollTick_returns.
  - intros env s1 H Ht. eexists. split; [by apply pollTick_success|].
    destruct (runFacade_frame api (OpGetNotifications JUndefined) s)
      as (b' & logged & Hs).
    simpl in Hs. rewrite H in Hs. simpl in Hs. subst s1. done.
Qed.

Lemma notifyListeners_isolates_failures_witness :
  exists s',
    pollTick scriptedApi secondThrows (pollingSystem [Ret twoNotifications])
    = (Ret tt, s')
    /\ notifications (manager s') = twoNotifications
    /\ calls s'
       = [(1%nat, twoNotifications); (2%nat, twoNotifications);
          (3%nat, twoNotifications)].
Proof.
  exact (proj2 (proj2 (notifyListeners_isolates_failures scriptedApi secondThrows
                         (pollingSystem [Ret twoNotifications])))
           _ _ eq_refl eq_refl).
Defined.

Example notifyListeners_logs_each_failure :
  console (pollTick scriptedApi secondThrows
             (pollingSystem [Ret twoNotifications])).2
  = [LogInfo "Real-time notifications started";
     LogError "Error in notification listener:" (Js.error "listener failed")].
Proof. by vm_compute. Qed.

(** C8.  On a tick whose fetch returns a failure envelope, the tick ends
    in the state the facade left: the manager, with its cached
    notifications, is as before the tick, and no listener is called. *)
Theorem pollTick_failure_keeps_cache {Backend : Type}
    (api : ApiClient Backend) (callbacks : nat -> JsVal -> option JsVal)
    (s s1 : System Backend) (env : JsVal) :
  getNotifications api JUndefined s = (Ret env, s1) ->
  Js.getField env "success" = JBool false ->
  pollTick api callbacks s = (Ret tt, s1)
  /\ notifications (manager s1) = notifications (manager s)
  /\ manager s1 = manager s
  /\ calls s1 = calls s.
Proof.
  intros H Hs. split.
  - apply (pollTick_failure api callbacks s s1 env H). by rewrite Hs.
  - destruct (runFacade_frame api (OpGetNotifications JUndefined) s)
      as (b' & logged & Hf).
    simpl in Hf. rewrite H in Hf. simpl in Hf. subst s1. done.
Qed.

Lemma pollTick_failure_keeps_cache_witness :
  pollTick scriptedApi secondThrows (pollingSystem [])
  = (Ret tt,
     afterCall (pollingSystem []) []
       [LogError "Failed to fetch notifications, falling back to mock:"
          (Js.error "Network Error")])
  /\ calls (afterCall (pollingSystem []) []
              [LogError "Failed to fetch notifications, falling back to mock:"
                 (Js.error "Network Error")]) = [].
Proof.
  pose proof (pollTick_failure_keeps_cache scriptedApi secondThrows
                (pollingSystem [])
                (afterCall (pollingSystem []) []
                   [LogError "Failed to fetch notifications, falling back to mock:"
                      (Js.error "Network Error")])
                (JObj [("success", JBool false); ("data", JArr []);
                       ("error", JStr (js "Network Error"))])
                eq_refl eq_refl) as (H1 & _ & _ & H2).
  exact (conj H1 H2).
Defined.

(** C9.  In every state the system can reach, at most one recurring poll
    is scheduled.  [startRealTime] on a manager that is polling changes
    nothing; after two calls in a row exactly one poll is scheduled, and
    the second call changed nothing. *)
Theorem startRealTime_single_poll {Backend : Type}
    (api : ApiClient Backend) (callbacks : nat -> JsVal -> option JsVal)
    (s : System Backend) :
  reachable api callbacks s ->
  (length (intervals s) <= 1)%nat
  /\ (isPolling (manager s) = true -> startRealTime s = (Ret tt, s))
  /\ startRealTime (startRealTime s).2 = (Ret tt, (startRealTime s).2)
  /\ length (intervals (startRealTime (startRealTime s).2).2) = 1%nat.
Proof.
  intros Hr. pose proof (reachable_inv api callbacks s Hr) as [Hn Hinv].
  assert (isPolling (manager (startRealTime s).2) = true
          /\ length (intervals (startRealTime s).2) = 1%nat) as [Hp Hl].
  { destruct Hinv as [(Hp & id & _ & _ & Hi)|(Hp & _ & Hi)].
    - rewrite startRealTime_polling by done. simpl. by rewrite Hi.
    - rewrite startRealTime_idle by done. simpl. by rewrite Hi. }
  split; [|split; [|split]].
  - destruct Hinv as [(_ & id & _ & _ & ->)|(_ & _ & ->)]; simpl; lia.
  - apply startRealTime_polling.
  - by apply startRealTime_polling.
  - by rewrite startRealTime_polling.
Qed.

Lemma startRealTime_single_poll_witness :
  reachable scriptedApi secondThrows (pollingSystem [Ret twoNotifications])
  /\ intervals (startRealTime (pollingSystem [Ret twoNotifications])).2
     = [(1%N, 30000%N)].
Proof.
  assert (reachable scriptedApi secondThrows
            (pollingSystem [Ret twoNotifications])) as Hr.
  { unfold pollingSystem. repeat apply reachable_step. apply reachable_init. }
  split; [exact Hr|].
  rewrite (proj1 (proj2 (startRealTime_single_poll _ _ _ Hr)) eq_refl).
  reflexivity.
Defined.

(** The manager scenario of the specification: after [startRealTime] and
    a poll that returns two notifications, one of them unread, the unread
    count is 1 and each listener has been called once with the two;
    [stopRealTime] then leaves nothing scheduled. *)
Example manager_scenario :
  let s1 := (pollTick scriptedApi secondThrows
               (pollingSystem [Ret twoNotifications])).2 in
  getUnreadCount (manager s1) = 1%nat
  /\ calls s1 = invocations twoNotifications [1; 2; 3]%nat
  /\ intervals s1 = [(1%N, 30000%N)]
  /\ intervals (stopRealTime s1).2 = []
  /\ isPolling (manager (stopRealTime s1).2) = false.
Proof. by vm_compute. Qed.

(* ===================================================================== *)
(** * Further properties of the validation toolkit *)
(* ===================================================================== *)

(** ** Letter case and white space *)

Module CaseFacts.
Import JsString.

Ltac each_char c :=
  destruct c as [[|] [|] [|] [|] [|] [|] [|] [|]]; vm_compute; reflexivity.

Lemma lowerChar_idemp c : lowerChar (lowerChar c) = lowerChar c.
Proof. each_char c. Qed.

Lemma isSpace_lowerChar c : isSpace (lowerChar c) = isSpace c.
Proof. each_char c. Qed.

Lemma notSpaceAt_lowerChar c : notSpaceAt (lowerChar c) = notSpaceAt c.
Proof. each_char c. Qed.

Lemma eqb_at_lowerChar c : Ascii.eqb "@" (lowerChar c) = Ascii.eqb "@" c.
Proof. each_char c. Qed.

Lemma eqb_lowerChar_at c : Ascii.eqb (lowerChar c) "@" = Ascii.eqb c "@".
Proof. each_char c. Qed.

Lemma eqb_dot_lowerChar c : Ascii.eqb "." (lowerChar c) = Ascii.eqb "." c.
Proof. each_char c. Qed.

Lemma toLowerCase_idemp s : toLowerCase (toLowerCase s) = toLowerCase s.
Proof.
  unfold toLowerCase. rewrite <- list_fmap_compose.
  apply list_fmap_ext. intros _ c _. apply lowerChar_idemp.
Qed.

Lemma toLowerCase_app s t : toLowerCase (s ++ t) = toLowerCase s ++ toLowerCase t.
Proof. apply fmap_app. Qed.

Lemma trimStart_toLowerCase s :
  trimStart (toLowerCase s) = toLowerCase (trimStart s).
Proof.
  induction s as [|c s IH]; [done|]. simpl.
  rewrite isSpace_lowerChar. by destruct (isSpace c).
Qed.

Lemma reverse_toLowerCase s : reverse (toLowerCase s) = toLowerCase (reverse s).
Proof. unfold toLowerCase. by rewrite fmap_reverse. Qed.

(** [trim] and [toLowerCase] can be applied in either order. *)
Lemma trim_toLowerCase s : trim (toLowerCase s) = toLowerCase (trim s).
Proof.
  unfold trim, trimEnd. rewrite trimStart_toLowerCase.
  by rewrite reverse_toLowerCase, trimStart_toLowerCase, reverse_toLowerCase.
Qed.

Lemma trimStart_spaces sp s :
  Forall (fun c => isSpace c = true) sp -> trimStart (sp ++ s) = trimStart s.
Proof. induction 1 as [|c sp Hc _ IH]; [done|]. simpl. by rewrite Hc. Qed.

Lemma trimStart_no_space s :
  Forall (fun c => isSpace c = false) s -> trimStart s = s.
Proof. apply JsStringFacts.trimStart_id. Qed.

(** What [trimStart] leaves does not start with white space. *)
Lemma trimStart_head s :
  match trimStart s with
  | c :: _ => isSpace c = false
  | [] => True
  end.
Proof.
  induction s as [|c s IH]; [done|]. simpl.
  destruct (isSpace c) eqn:Hc; [exact IH | done].
Qed.

Lemma trimStart_app_nonspace s t :
  trimStart s <> [] -> trimStart (s ++ t) = trimStart s ++ t.
Proof.
  induction s as [|c s IH]; [done|]. simpl.
  destruct (isSpace c); [exact IH | done].
Qed.

Lemma trimStart_all_space s :
  trimStart s = [] -> Forall (fun c => isSpace c = true) s.
Proof.
  induction s as [|c s IH]; [constructor|]. simpl.
  destruct (isSpace c) eqn:Hc; [|done]. intros H. constructor; auto.
Qed.

(** White space around a string does not survive [trim]. *)
Lemma trim_padded sp s sp' :
  Forall (fun c => isSpace c = true) sp ->
  Forall (fun c => isSpace c = true) sp' ->
  trim (sp ++ s ++ sp') = trim s.
Proof.
  intros Hsp Hsp'. unfold trim, trimEnd.
  rewrite (trimStart_spaces sp) by done.
  destruct (trimStart s) as [|c r] eqn:Hs.
  - pose proof (trimStart_all_space s Hs) as Hall.
    rewrite (trimStart_spaces s) by done.
    assert (trimStart sp' = []) as ->.
    { rewrite <- (app_nil_r sp'). by rewrite trimStart_spaces. }
    done.
  - rewrite trimStart_app_nonspace by by rewrite Hs.
    rewrite Hs. rewrite reverse_app.
    rewrite trimStart_spaces; [done|]. by apply Forall_reverse.
Qed.

End CaseFacts.

(** ** Email syntax *)

Module RegexInvariance.
Import Regex.

Lemma deriv_invariant f r c :
  classesInvariant f r -> deriv (f c) r = deriv c r.
Proof.
  induction r as [| |p|r1 IH1 r2 IH2|r1 IH1 r2 IH2|r IH]; simpl; intros H;
    try done.
  - by rewrite H.
  - destruct H as [H1 H2]. by rewrite IH1, IH2.
  - destruct H as [H1 H2]. by rewrite IH1, IH2.
  - by rewrite IH.
Qed.

Lemma classesInvariant_deriv f r c :
  classesInvariant f r -> classesInvariant f (deriv c r).
Proof.
  induction r as [| |p|r1 IH1 r2 IH2|r1 IH1 r2 IH2|r IH]; simpl; intros H;
    try done.
  - by destruct (p c).
  - destruct H as [H1 H2]. destruct (nullable r1); simpl; auto.
  - destruct H as [H1 H2]. auto.
  - auto.
Qed.

Lemma test_invariant f r s :
  classesInvariant f r -> test r (f <$> s) = test r s.
Proof.
  revert r. induction s as [|c s IH]; intros r H; [done|].
  simpl. rewrite deriv_invariant by done.
  apply IH. by apply classesInvariant_deriv.
Qed.

End RegexInvariance.

Lemma emailRegex_case_invariant :
  classesInvariant JsString.lowerChar emailRegex.
Proof.
  unfold emailRegex, Regex.Plus. simpl.
  repeat split; intros c;
    first [apply CaseFacts.notSpaceAt_lowerChar
          | apply CaseFacts.eqb_at_lowerChar
          | apply CaseFacts.eqb_dot_lowerChar].
Qed.

Lemma emailChar_no_space_list s :
  Forall emailChar s -> Forall (fun c => JsString.isSpace c = false) s.
Proof.
  intros H. eapply Forall_impl; [exact H|]. apply emailChar_not_space.
Qed.

Lemma isValidEmail_no_space email :
  isValidEmail email = true ->
  Forall (fun c => JsString.isSpace c = false) email.
Proof.
  intros (l & d & t & -> & _ & _ & _ & Hl & Hd & Ht)%isValidEmail_iff.
  apply Forall_app. split; [by apply emailChar_no_space_list|].
  apply Forall_cons. split; [done|].
  apply Forall_app. split; [by apply emailChar_no_space_list|].
  apply Forall_cons. split; [done|]. by apply emailChar_no_space_list.
Qed.

(** X1.  What [isValidEmail] accepts, exactly: a non-empty local part,
    one [@], and a domain made of two non-empty pieces around a dot,
    where no piece holds white space or [@].  Nothing else is required:
    the pieces may themselves hold dots, also at their ends. *)
Theorem isValidEmail_accepts_exactly (email : jstring) :
  isValidEmail email = true <->
  exists l d t,
    email = l ++ "@"%char :: d ++ "."%char :: t
    /\ l <> [] /\ d <> [] /\ t <> []
    /\ Forall emailChar l /\ Forall emailChar d /\ Forall emailChar t.
Proof. apply isValidEmail_iff. Qed.

Lemma isValidEmail_lower email :
  isValidEmail (JsString.toLowerCase email) = isValidEmail email.
Proof.
  unfold isValidEmail, JsString.toLowerCase.
  apply RegexInvariance.test_invariant, emailRegex_case_invariant.
Qed.

(** X2.  Lower-casing an address never changes whether [isValidEmail]
    accepts it, so [normalizeEmails] may validate after lower-casing. *)
Theorem isValidEmail_toLowerCase (email : jstring) :
  isValidEmail (JsString.toLowerCase email) = isValidEmail email.
Proof. apply isValidEmail_lower. Qed.

(** The emails that [normalizeEmails] returns are in normal form. *)
Lemma normalizeEmails_normal emails :
  Forall (fun x => isValidEmail x = true
                   /\ JsString.toLowerCase (JsString.trim x) = x
                   /\ (0 < length x)%nat)
    (normalizeEmails emails).
Proof.
  assert (forall y,
             isValidEmail (JsString.toLowerCase (JsString.trim y)) = true ->
             JsString.toLowerCase
               (JsString.trim (JsString.toLowerCase (JsString.trim y)))
             = JsString.toLowerCase (JsString.trim y)) as Hnf.
  { intros y Hv. rewrite JsStringFacts.trim_id by by apply isValidEmail_no_space.
    apply CaseFacts.toLowerCase_idemp. }
  unfold normalizeEmails. destruct (negb (Js.truthy emails)); [constructor|].
  destruct emails as [| | | |s|l|]; try constructor.
  - apply Forall_forall. intros x [[Hlen Hv] Hin]%list_elem_of_filter.
    apply list_elem_of_fmap in Hin as (y & -> & _). auto.
  - apply Forall_forall. intros x [[Hlen Hv] Hin]%list_elem_of_filter.
    apply list_elem_of_fmap in Hin as (y & -> & _).
    destruct y; try done. auto.
Qed.

(** A list of strings in normal form is what [normalizeEmails] returns
    for it. *)
Lemma normalizeEmails_of_normal (l : list jstring) :
  Forall (fun x => JsString.toLowerCase (JsString.trim x) = x
                   /\ (0 < length x)%nat) l ->
  normalizeEmails (JArr (JStr <$> l))
  = filter (fun x => isValidEmail x = true) l.
Proof.
  intros H. unfold normalizeEmails. simpl. rewrite <- list_fmap_compose.
  induction H as [|x l [Hx Hlen] _ IH]; [done|].
  rewrite fmap_cons. simpl. rewrite Hx. rewrite !filter_cons.
  destruct (isValidEmail x) eqn:Hv.
  - rewrite decide_True by done. rewrite decide_True by done.
    f_equal. exact IH.
  - rewrite decide_False by (intros [_ ?]; done).
    rewrite decide_False by done. exact IH.
Qed.

(** X3.  [normalizeEmails] is idempotent: given its own result as an
    array, it returns the same list.  Its results are valid emails, free
    of surrounding white space and in lower case. *)
Theorem normalizeEmails_idempotent (emails : JsVal) :
  normalizeEmails (JArr (JStr <$> normalizeEmails emails))
  = normalizeEmails emails
  /\ Forall (fun x => isValidEmail x = true
                      /\ JsString.trim x = x /\ JsString.toLowerCase x = x)
       (normalizeEmails emails).
Proof.
  pose proof (normalizeEmails_normal emails) as Hn. split.
  - rewrite normalizeEmails_of_normal.
    + induction Hn as [|x l (Hv & _ & _) _ IH]; [done|].
      rewrite filter_cons, decide_True by done. by f_equal.
    + eapply Forall_impl; [exact Hn|]. simpl. tauto.
  - eapply Forall_impl; [exact Hn|]. simpl. intros x (Hv & Hx & _).
    assert (JsString.trim x = x) as Ht
      by by apply JsStringFacts.trim_id, isValidEmail_no_space.
    rewrite Ht in Hx. done.
Qed.

(** ** Domains *)

Lemma split_toLowerCase s :
  JsString.split "@" (JsString.toLowerCase s)
  = JsString.toLowerCase <$> JsString.split "@" s.
Proof.
  induction s as [|c s IH]; [done|].
  cbn [JsString.toLowerCase fmap list_fmap JsString.split].
  change (JsString.lowerChar <$> s) with (JsString.toLowerCase s).
  rewrite CaseFacts.eqb_lowerChar_at, IH.
  destruct (Ascii.eqb c "@"); [done|].
  by destruct (JsString.split "@" s).
Qed.

Lemma emailDomainOf_toLowerCase email :
  emailDomainOf (JsString.toLowerCase email) = emailDomainOf email.
Proof.
  unfold emailDomainOf. rewrite split_toLowerCase, list_lookup_fmap.
  destruct (JsString.split "@" email !! 1%nat); simpl; [|done].
  by rewrite CaseFacts.toLowerCase_idemp.
Qed.

(** X5.  [isAllowedDomain] ignores letter case, in the email and in the
    entries of the allow-list. *)
Theorem isAllowedDomain_case_insensitive (email : jstring)
    (allowedDomains : allowList) :
  isAllowedDomain (JsString.toLowerCase email) allowedDomains
  = isAllowedDomain email allowedDomains
  /\ isAllowedDomain email
       (fmap (M:=list) JsString.toLowerCase <$> allowedDomains)
     = isAllowedDomain email allowedDomains.
Proof.
  split.
  - unfold isAllowedDomain.
    rewrite isValidEmail_lower, emailDomainOf_toLowerCase.
    destruct email; done.
  - unfold isAllowedDomain.
    destruct (bool_decide (email = []) || negb (isValidEmail email)); [done|].
    destruct allowedDomains as [ds|]; [|done]. simpl.
    rewrite length_fmap. destruct (length ds =? 0)%nat; [done|].
    clear. induction ds as [|d ds IH]; [done|].
    rewrite fmap_cons. cbn [existsb].
    by rewrite IH, CaseFacts.toLowerCase_idemp.
Qed.

(** X6.  [extractDomain] returns [null] exactly for the strings that
    [isValidEmail] refuses.  For a valid email it returns the part after
    the [@] in lower case, and the email is allowed by the allow-list
    that holds just this domain. *)
Theorem extractDomain_allowed (email : jstring) :
  (isValidEmail email = false -> extractDomain email = None)
  /\ (isValidEmail email = true ->
      exists l dom,
        email = l ++ "@"%char :: dom
        /\ extractDomain email = Some (JsString.toLowerCase dom)
        /\ isAllowedDomain email (Some [JsString.toLowerCase dom]) = true).
Proof.
  split.
  - intros H. unfold extractDomain. by rewrite H, orb_true_r.
  - intros Hv. destruct (emailDomainOf_valid _ Hv) as (l & dom & He & _ & _ & Hd).
    exists l, dom. split; [done|].
    unfold extractDomain, isAllowedDomain. rewrite Hv, Hd.
    rewrite bool_decide_eq_false_2 by by apply isValidEmail_nonempty.
    simpl. split; [done|].
    rewrite CaseFacts.toLowerCase_idemp.
    by rewrite bool_decide_eq_true_2.
Qed.

Lemma extractDomain_allowed_witness :
  exists l dom,
    js "Ann@Mail.Example.COM" = l ++ "@"%char :: dom
    /\ extractDomain (js "Ann@Mail.Example.COM")
       = Some (JsString.toLowerCase dom)
    /\ isAllowedDomain (js "Ann@Mail.Example.COM")
         (Some [JsString.toLowerCase dom]) = true.
Proof.
  apply (proj2 (extractDomain_allowed (js "Ann@Mail.Example.COM"))).
  by vm_compute.
Defined.

(** X7.  Adding entries to a non-empty allow-list never takes an email
    out: what the list allowed stays allowed.  (Going from the empty list
    to a non-empty one is the step that restricts.) *)
Theorem isAllowedDomain_monotone (email : jstring) (ds more : list jstring) :
  ds <> [] ->
  isAllowedDomain email (Some ds) = true ->
  isAllowedDomain email (Some (ds ++ more)) = true
  /\ isAllowedDomain email (Some (more ++ ds)) = true
  /\ isAllowedDomain email (Some []) = true.
Proof.
  intros Hne. unfold isAllowedDomain.
  destruct (bool_decide (email = []) || negb (isValidEmail email)); [done|].
  destruct ds as [|d ds]; [done|]. simpl length. simpl Nat.eqb. cbv iota.
  intros H. split; [|split; [|done]].
  - simpl. simpl in H. rewrite existsb_app.
    apply orb_true_iff in H as [H|H]; rewrite H; simpl; by rewrite ?orb_true_r.
  - destruct (length (more ++ d :: ds) =? 0)%nat; [done|].
    rewrite existsb_app. rewrite H. by rewrite orb_true_r.
Qed.

Lemma isAllowedDomain_monotone_witness :
  isAllowedDomain (js "u@sub.example.com")
    (Some ([js "example.com"] ++ [js "other.org"])) = true
  /\ isAllowedDomain (js "u@sub.example.com")
       (Some ([js "other.org"] ++ [js "example.com"])) = true
  /\ isAllowedDomain (js "u@sub.example.com") (Some []) = true.
Proof.
  apply (isAllowedDomain_monotone (js "u@sub.example.com") [js "example.com"]
           [js "other.org"]).
  - done.
  - by vm_compute.
Defined.

Lemma isValidEmail_accepts_exactly_witness :
  exists l d t,
    js "ann.lee@mail.example.com" = l ++ "@"%char :: d ++ "."%char :: t
    /\ l <> [] /\ d <> [] /\ t <> []
    /\ Forall emailChar l /\ Forall emailChar d /\ Forall emailChar t.
Proof.
  apply (proj1 (isValidEmail_accepts_exactly (js "ann.lee@mail.example.com"))).
  by vm_compute.
Defined.

(** ** Bulk parsing and batch validation agree *)

Module AgreementFacts.
Import BulkSpec.

Lemma isAllowedDomain_true_valid t allowedDomains :
  isAllowedDomain t allowedDomains = true -> isValidEmail t = true.
Proof.
  intros H. destruct (isValidEmail t) eqn:Hv; [done|].
  by rewrite isAllowedDomain_invalid in H.
Qed.

(** With the tokens classified valid so far all allowed, the class of a
    token is decided by [isValidEmail] and [isAllowedDomain] alone, up to
    the difference between valid and duplicate. *)
Lemma classify_by_domain allowedDomains earlier t :
  Forall (fun x => isAllowedDomain x allowedDomains = true) earlier ->
  match classify allowedDomains earlier t with
  | Invalid => isValidEmail t = false
  | Restricted =>
      isValidEmail t = true /\ isAllowedDomain t allowedDomains = false
  | Valid | Duplicate => isAllowedDomain t allowedDomains = true
  end.
Proof.
  intros He. unfold classify. destruct (isValidEmail t) eqn:Hv; simpl; [|done].
  case_bool_decide as Hin; simpl.
  - rewrite Forall_forall in He. by apply He.
  - destruct (isAllowedDomain t allowedDomains) eqn:Ha; simpl; [done|].
    destruct (nonEmptyAllowList allowedDomains) eqn:Hn; simpl; [done|].
    by rewrite isAllowedDomain_unrestricted in Ha.
Qed.

Lemma buckets_by_domain allowedDomains toks :
  forall earlier,
    Forall (fun x => isAllowedDomain x allowedDomains = true) earlier ->
    bucket Restricted (classifyAll allowedDomains earlier toks)
    = filter (fun t => isAllowedDomain t allowedDomains = false)
        (filter (fun t => isValidEmail t = true) toks)
    /\ bucket Valid (classifyAll allowedDomains earlier toks)
         ++ bucket Duplicate (classifyAll allowedDomains earlier toks)
       ≡ₚ filter (fun t => isAllowedDomain t allowedDomains = true)
            (filter (fun t => isValidEmail t = true) toks).
Proof.
  induction toks as [|t toks IH]; intros earlier He; [done|].
  cbn [classifyAll]. rewrite !BulkFacts.bucket_cons.
  pose proof (classify_by_domain allowedDomains earlier t He) as Hc.
  rewrite (filter_cons (fun t => isValidEmail t = true)).
  destruct (classify allowedDomains earlier t) eqn:Hcl; simpl.
  - rewrite decide_False by congruence. by apply IH.
  - pose proof (isAllowedDomain_true_valid _ _ Hc) as Hv.
    rewrite decide_True by done. rewrite !filter_cons.
    rewrite decide_False by congruence. rewrite decide_True by done.
    destruct (IH earlier He) as [-> HP]. split; [done|].
    rewrite <- Permutation_middle. by rewrite HP.
  - destruct Hc as [Hv Ha].
    rewrite decide_True by done. rewrite !filter_cons.
    rewrite decide_True by done. rewrite decide_False by congruence.
    destruct (IH earlier He) as [-> HP]. done.
  - pose proof (isAllowedDomain_true_valid _ _ Hc) as Hv.
    rewrite decide_True by done. rewrite !filter_cons.
    rewrite decide_False by congruence. rewrite decide_True by done.
    destruct (IH (earlier ++ [t])) as [-> HP].
    { apply Forall_app. split; [done|]. by constructor. }
    split; [done|]. simpl. by rewrite HP.
Qed.

(** The tokens of [parseBulkEmails] are in the normal form of
    [normalizeEmails]. *)
Lemma bulkTokens_normal input :
  Forall (fun x => JsString.toLowerCase (JsString.trim x) = x
                   /\ (0 < length x)%nat) (bulkTokens input).
Proof.
  rewrite BulkFacts.bulkTokens_tokens. unfold tokens.
  pose proof (words_no_sep isBulkSep [] input (Forall_nil_2 _)) as Hw.
  apply Forall_fmap. eapply Forall_impl; [exact Hw|]. simpl.
  intros w [Hne Hsep]. split.
  - rewrite <- CaseFacts.trim_toLowerCase, CaseFacts.toLowerCase_idemp.
    rewrite CaseFacts.trim_toLowerCase.
    rewrite JsStringFacts.trim_id; [done|].
    by apply BulkFacts.Forall_not_sep_not_space.
  - rewrite JsStringFacts.length_toLowerCase. destruct w; [done|simpl; lia].
Qed.

End AgreementFacts.

(** X4.  The two entry points agree on the same tokens: when the tokens
    of [parseBulkEmails] are given to [validateEmailBatch] as an array,
    the batch's [domainRestricted] is the bulk parser's
    [domainRestricted], in the same order, and the batch's [valid] holds
    the bulk parser's [valid] and [duplicates] together. *)
Theorem validateEmailBatch_agrees_with_parseBulkEmails (input : jstring)
    (allowedDomains : allowList) :
  batchDomainRestricted
    (validateEmailBatch (JArr (JStr <$> bulkTokens input)) allowedDomains)
  = domainRestricted (parseBulkEmails input allowedDomains)
  /\ batchValid
       (validateEmailBatch (JArr (JStr <$> bulkTokens input)) allowedDomains)
     ≡ₚ valid (parseBulkEmails input allowedDomains)
          ++ duplicates (parseBulkEmails input allowedDomains).
Proof.
  unfold validateEmailBatch.
  rewrite (batch_fold _ _ (normalizeEmails_valid _)). simpl.
  rewrite normalizeEmails_of_normal by apply AgreementFacts.bulkTokens_normal.
  rewrite BulkFacts.parseBulkEmails_parse. unfold BulkSpec.parse. simpl.
  rewrite <- BulkFacts.bulkTokens_tokens.
  destruct (AgreementFacts.buckets_by_domain allowedDomains (bulkTokens input) []
              (Forall_nil_2 _)) as [-> ->].
  done.
Qed.

(** ** Duplicate detection *)

(** X8.  [isDuplicateEmail] ignores letter case and surrounding white
    space in the email it is asked about, and an email that is in the
    list is a duplicate. *)
Theorem isDuplicateEmail_insensitive (email : jstring)
    (existingEmails : list jstring) (sp sp' : jstring) :
  Forall (fun c => JsString.isSpace c = true) sp ->
  Forall (fun c => JsString.isSpace c = true) sp' ->
  isDuplicateEmail (sp ++ email ++ sp') existingEmails
  = isDuplicateEmail email existingEmails
  /\ isDuplicateEmail (JsString.toLowerCase email) existingEmails
     = isDuplicateEmail email existingEmails
  /\ (email ∈ existingEmails -> isDuplicateEmail email existingEmails = true).
Proof.
  intros Hsp Hsp'. unfold isDuplicateEmail. split; [|split].
  - rewrite !CaseFacts.toLowerCase_app.
    rewrite CaseFacts.trim_padded; [done| |].
    + apply Forall_fmap. eapply Forall_impl; [exact Hsp|]. simpl.
      intros c Hc. by rewrite CaseFacts.isSpace_lowerChar.
    + apply Forall_fmap. eapply Forall_impl; [exact Hsp'|]. simpl.
      intros c Hc. by rewrite CaseFacts.isSpace_lowerChar.
  - by rewrite CaseFacts.toLowerCase_idemp.
  - intros Hin. apply existsb_exists. exists email.
    split; [by apply list_elem_of_In|]. by apply bool_decide_eq_true.
Qed.

Lemma isDuplicateEmail_insensitive_witness :
  isDuplicateEmail (js "  " ++ js "Ann@X.com" ++ js " ")
    [js "bob@y.org"; js "ann@x.com"]
  = isDuplicateEmail (js "Ann@X.com") [js "bob@y.org"; js "ann@x.com"].
Proof.
  assert (Forall (fun c => JsString.isSpace c = true) (js "  ")) as H1
    by (vm_compute; by repeat constructor).
  assert (Forall (fun c => JsString.isSpace c = true) (js " ")) as H2
    by (vm_compute; by repeat constructor).
  exact (proj1 (isDuplicateEmail_insensitive (js "Ann@X.com")
                  [js "bob@y.org"; js "ann@x.com"] (js "  ") (js " ") H1 H2)).
Defined.

(** X9.  Against a list that [normalizeEmails] produced, an email is a
    duplicate exactly when its own normal form (trimmed, lower-cased) is
    in the list: the two functions normalize alike, although one trims
    first and the other lower-cases first. *)
Theorem isDuplicateEmail_of_normalized (email : jstring) (emails : JsVal) :
  isDuplicateEmail email (normalizeEmails emails) = true
  <-> JsString.toLowerCase (JsString.trim email) ∈ normalizeEmails emails.
Proof.
  unfold isDuplicateEmail. rewrite existsb_exists.
  pose proof (normalizeEmails_normal emails) as Hn.
  rewrite Forall_forall in Hn. split.
  - intros (x & Hin%list_elem_of_In & Hx%bool_decide_eq_true).
    destruct (Hn x Hin) as (_ & Hnf & _).
    rewrite !CaseFacts.trim_toLowerCase in Hx. rewrite Hnf in Hx.
    by rewrite <- Hx.
  - intros Hin. exists (JsString.toLowerCase (JsString.trim email)).
    split; [by apply list_elem_of_In|]. apply bool_decide_eq_true.
    destruct (Hn _ Hin) as (_ & Hnf & _).
    rewrite CaseFacts.trim_toLowerCase. rewrite Hnf.
    by rewrite CaseFacts.trim_toLowerCase.
Qed.

Lemma isDuplicateEmail_of_normalized_witness :
  isDuplicateEmail (js " B@Y.org") (normalizeEmails (JStr (js "A@X.com, b@y.org")))
  = true.
Proof.
  apply (proj2 (isDuplicateEmail_of_normalized (js " B@Y.org")
                  (JStr (js "A@X.com, b@y.org")))).
  vm_compute. right. left.
Defined.

(** ** Phone numbers *)

Module PhoneFacts.
Import Regex RegexOps.

Lemma lang_eps_inv s : lang Eps s <-> s = [].
Proof. split; [by inversion 1 | intros ->; constructor]. Qed.

Lemma lang_alt_inv r1 r2 s : lang (Alt r1 r2) s <-> lang r1 s \/ lang r2 s.
Proof.
  split.
  - inversion 1; subst; auto.
  - intros [H|H]; [by apply lang_alt_l | by apply lang_alt_r].
Qed.

Lemma lang_opt r s : lang (Opt r) s <-> s = [] \/ lang r s.
Proof. unfold Opt. by rewrite lang_alt_inv, lang_eps_inv. Qed.

Lemma lang_upTo_class p n :
  forall s,
    lang (upTo n (Class p)) s <->
    Forall (fun c => p c = true) s /\ (length s <= n)%nat.
Proof.
  induction n as [|n IH]; intros s; simpl.
  - rewrite lang_eps_inv. split.
    + intros ->. split; [constructor | simpl; lia].
    + intros [_ Hl]. destruct s; [done | simpl in Hl; lia].
  - rewrite lang_opt, RegexFacts.lang_seq_inv. split.
    + intros [->|(s1 & s2 & -> & H1 & H2)].
      * split; [constructor | simpl; lia].
      * apply RegexFacts.lang_class_inv in H1 as (c & -> & Hc).
        apply IH in H2 as [HF Hl]. simpl.
        split; [by constructor | lia].
    + intros [HF Hl]. destruct s as [|c s]; [by left|]. right.
      apply Forall_cons in HF as [Hc HF]. simpl in Hl.
      exists [c], s. split; [done|]. split; [by constructor|].
      apply IH. split; [done | lia].
Qed.

End PhoneFacts.

(** X10.  What [isValidPhone] accepts, exactly: an optional [+], a digit
    from 1 to 9, and at most 15 further digits; so no separators, no
    leading zero, and at most 16 digits in all. *)
Theorem isValidPhone_accepts_exactly (phone : jstring) :
  isValidPhone phone = true <->
  exists sign d ds,
    phone = sign ++ d :: ds
    /\ (sign = [] \/ sign = ["+"%char])
    /\ isDigit19 d = true
    /\ Forall (fun c => isDigit c = true) ds
    /\ (length ds <= 15)%nat.
Proof.
  unfold isValidPhone, phoneRegex. rewrite RegexFacts.test_lang.
  rewrite RegexFacts.lang_seq_inv. split.
  - intros (sign & rest & -> & Hs & Hr).
    apply RegexFacts.lang_seq_inv in Hr as (d1 & ds & -> & Hd & Hds).
    apply RegexFacts.lang_class_inv in Hd as (d & -> & Hd).
    apply PhoneFacts.lang_upTo_class in Hds as [HF Hl].
    exists sign, d, ds. split; [done|]. split; [|done].
    apply PhoneFacts.lang_opt in Hs as [->|Hs]; [by left|]. right.
    apply RegexFacts.lang_class_inv in Hs as (c & -> & Hc).
    by apply Ascii.eqb_eq in Hc as <-.
  - intros (sign & d & ds & -> & Hs & Hd & HF & Hl).
    exists sign, (d :: ds). split; [done|]. split.
    + apply PhoneFacts.lang_opt. destruct Hs as [->| ->]; [by left|]. right.
      by constructor.
    + apply RegexFacts.lang_seq_inv. exists [d], ds.
      split; [done|]. split; [by constructor|].
      by apply PhoneFacts.lang_upTo_class.
Qed.

Lemma isValidPhone_accepts_exactly_witness :
  exists sign d ds,
    js "+4915112345678" = sign ++ d :: ds
    /\ (sign = [] \/ sign = ["+"%char])
    /\ isDigit19 d = true
    /\ Forall (fun c => isDigit c = true) ds
    /\ (length ds <= 15)%nat.
Proof.
  apply (proj1 (isValidPhone_accepts_exactly (js "+4915112345678"))).
  by vm_compute.
Defined.

Example isValidPhone_samples :
  isValidPhone (js "0123") = false
  /\ isValidPhone (js "+1 555 0100") = false
  /\ isValidPhone (js "12345678901234567") = false
  /\ isValidPhone (js "1234567890123456") = true.
Proof. by vm_compute. Qed.

(** ** Member invitations *)

Module InvitationFacts.
Import Invitation.

Lemma emailError_nil data existingEmails allowedDomains :
  emailError data existingEmails allowedDomains = [] <->
  exists e,
    email data = Some e
    /\ isAllowedDomain e allowedDomains = true
    /\ isDuplicateEmail e existingEmails = false.
Proof.
  unfold emailError. split.
  - destruct (email data) as [e|]; [|done].
    case_bool_decide as He; [done|].
    destruct (isValidEmail e) eqn:Hv; simpl; [|done].
    destruct (isAllowedDomain e allowedDomains) eqn:Ha; simpl.
    + destruct (isDuplicateEmail e existingEmails) eqn:Hd; [done|].
      intros _. by exists e.
    + destruct (nonEmptyAllowList allowedDomains) eqn:Hn; simpl; [done|].
      by rewrite isAllowedDomain_unrestricted in Ha.
  - intros (e & -> & Ha & Hd).
    pose proof (AgreementFacts.isAllowedDomain_true_valid _ _ Ha) as Hv.
    rewrite bool_decide_eq_false_2 by by apply isValidEmail_nonempty.
    by rewrite Hv, Ha, Hd.
Qed.

Lemma roleError_nil data : roleError data = [] <-> isValidRole (role data) = true.
Proof.
  unfold roleError, falsy, isValidRole.
  destruct (role data) as [r|]; [|done].
  case_bool_decide as Hr.
  - subst r. split; [done|]. by vm_compute.
  - by destruct (bool_decide (JsString.toLowerCase r ∈ validRoles)).
Qed.

Lemma nameError_nil data :
  nameError data = [] <->
  forall n, name data = Some n -> n = [] \/ (2 <= length (JsString.trim n))%nat.
Proof.
  unfold nameError, isValidName. destruct (name data) as [n|].
  - case_bool_decide as Hn.
    + simpl. split; [|done]. intros _ n' [= <-]. by left.
    + destruct (2 <=? length (JsString.trim n))%nat eqn:Hl; simpl.
      * split; [|done]. intros _ n' [= <-]. right. by apply Nat.leb_le.
      * split; [intros H; discriminate H|].
        intros H. destruct (H n eq_refl) as [?|Hle]; [done|].
        apply Nat.leb_le in Hle. congruence.
  - split; [|done]. by intros _ n'.
Qed.

End InvitationFacts.

(** X11.  [validateMemberInvitation] reports a valid invitation exactly
    when there is an email that [isAllowedDomain] accepts for the
    allow-list (hence a syntactically valid one) and that is not a
    duplicate of an existing member, the role is one of the four roles,
    and the name, when given and not empty, has at least two characters
    after trimming. *)
Theorem validateMemberInvitation_isValid (data : Invitation.Data)
    (existingEmails : list jstring) (allowedDomains : allowList) :
  Invitation.isValid
    (Invitation.validateMemberInvitation data existingEmails allowedDomains)
  = true
  <-> (exists e,
          Invitation.email data = Some e
          /\ isAllowedDomain e allowedDomains = true
          /\ isDuplicateEmail e existingEmails = false)
      /\ isValidRole (Invitation.role data) = true
      /\ (forall n, Invitation.name data = Some n ->
            n = [] \/ (2 <= length (JsString.trim n))%nat).
Proof.
  unfold Invitation.validateMemberInvitation. simpl.
  rewrite Nat.eqb_eq, length_zero_iff_nil.
  rewrite <- InvitationFacts.emailError_nil, <- InvitationFacts.roleError_nil,
    <- InvitationFacts.nameError_nil.
  split.
  - intros H. apply app_eq_nil in H as [H1 H]. by apply app_eq_nil in H as [H2 H3].
  - intros (-> & -> & ->). done.
Qed.

Lemma validateMemberInvitation_isValid_witness :
  (exists e,
      Some (js "new@x.com") = Some e
      /\ isAllowedDomain e (Some [js "x.com"]) = true
      /\ isDuplicateEmail e [js "dup@x.com"] = false)
  /\ isValidRole (Some (js "Admin")) = true
  /\ (forall n, Some (js "Jo") = Some n ->
        n = [] \/ (2 <= length (JsString.trim n))%nat).
Proof.
  apply (proj1 (validateMemberInvitation_isValid
                  (Invitation.mkData (Some (js "new@x.com")) (Some (js "Admin"))
                     (Some (js "Jo")))
                  [js "dup@x.com"] (Some [js "x.com"]))).
  by vm_compute.
Defined.

(** X12.  The [errors] object has at most one message per field, for the
    fields [email], [role] and [name] in this order, and [isValid] is
    false exactly when it holds a message. *)
Theorem validateMemberInvitation_errors (data : Invitation.Data)
    (existingEmails : list jstring) (allowedDomains : allowList) :
  (Invitation.errors
     (Invitation.validateMemberInvitation data existingEmails allowedDomains)).*1
    `sublist_of` ["email"; "role"; "name"]
  /\ (Invitation.isValid
        (Invitation.validateMemberInvitation data existingEmails allowedDomains)
      = false
      <-> Invitation.errors
            (Invitation.validateMemberInvitation data existingEmails
               allowedDomains) <> []).
Proof.
  unfold Invitation.validateMemberInvitation. simpl. split.
  - assert (forall (a b c : list string),
               a `sublist_of` ["email"] -> b `sublist_of` ["role"] ->
               c `sublist_of` ["name"] ->
               a ++ b ++ c `sublist_of` ["email"; "role"; "name"]) as Happ.
    { intros a b c Ha Hb Hc.
      change ["email"; "role"; "name"] with (["email"] ++ ["role"] ++ ["name"]).
      by repeat apply sublist_app. }
    rewrite !fmap_app. apply Happ.
    + unfold Invitation.emailError.
      destruct (Invitation.email data) as [e|]; [|done].
      repeat (match goal with |- context [if ?b then _ else _] => destruct b end);
        simpl; by repeat constructor.
    + unfold Invitation.roleError.
      repeat (match goal with |- context [if ?b then _ else _] => destruct b end);
        simpl; by repeat constructor.
    + unfold Invitation.nameError.
      destruct (Invitation.name data) as [n|]; [|by repeat constructor].
      repeat (match goal with |- context [if ?b then _ else _] => destruct b end);
        simpl; by repeat constructor.
  - rewrite Nat.eqb_neq, length_zero_iff_nil. done.
Qed.

Example validateMemberInvitation_sample :
  Invitation.validateMemberInvitation
    (Invitation.mkData (Some (js "dup@x.com")) (Some (js "admin")) None)
    [js "dup@x.com"] None
  = Invitation.mkResult false
      [("email", js "This email is already associated with a member")].
Proof. by vm_compute. Qed.

(** ** Field validators *)

Lemma strictEq_true v : Js.strictEq v (JBool true) = true <-> v = JBool true.
Proof.
  destruct v as [| |[|]| | | |]; simpl; split; intros H; try done.
Qed.

Lemma validateField_all {V : Type} (value : V) (rules : list (V -> JsVal)) :
  validateField value rules = JBool true
  <-> Forall (fun rule => rule value = JBool true) rules.
Proof.
  induction rules as [|rule rules IH]; simpl.
  - split; [constructor | done].
  - destruct (Js.strictEq (rule value) (JBool true)) eqn:Hr; simpl.
    + apply strictEq_true in Hr. rewrite IH. split.
      * intros H. by constructor.
      * by intros [_ H]%Forall_cons.
    + split.
      * intros H. apply strictEq_true in H. congruence.
      * intros [H _]%Forall_cons. apply strictEq_true in H. congruence.
Qed.

(** X13.  [validateField] returns [true] exactly when every rule returns
    [true]; otherwise it returns what the first rule that does not return
    [true] returned, and the rules after it have no influence. *)
Theorem validateField_first_failure {V : Type} (value : V)
    (passing : list (V -> JsVal)) (rule : V -> JsVal)
    (rest : list (V -> JsVal)) :
  Forall (fun r => r value = JBool true) passing ->
  rule value <> JBool true ->
  validateField value (passing ++ rule :: rest) = rule value
  /\ validateField value passing = JBool true
  /\ (forall rules,
        validateField value rules = JBool true
        <-> Forall (fun r => r value = JBool true) rules).
Proof.
  intros Hp Hr. split; [|split].
  - induction Hp as [|r passing Hrv _ IH]; simpl.
    + destruct (Js.strictEq (rule value) (JBool true)) eqn:Hs; [|done].
      by apply strictEq_true in Hs.
    + rewrite Hrv. simpl. exact IH.
  - by apply validateField_all.
  - intros rules. apply validateField_all.
Qed.

Lemma validateField_first_failure_witness :
  validateField (Some (js "not an email"))
    ([Rules.required None] ++ Rules.email None :: [Rules.domain None None])
  = Rules.email None (Some (js "not an email")).
Proof.
  refine (proj1 (validateField_first_failure (Some (js "not an email"))
                   [Rules.required None] (Rules.email None)
                   [Rules.domain None None] _ _)).
  - by repeat constructor.
  - by vm_compute.
Defined.

(** X14.  The rules [required], [email] and [domain] in a row accept a
    value exactly when it is an email that [isAllowedDomain] accepts for
    the allow-list; for a value that is missing the result is the message
    of [required]. *)
Theorem rules_required_email_domain (allowedDomains : allowList)
    (m1 m2 m3 : option jstring) (value : option jstring) :
  (validateField value
     [Rules.required m1; Rules.email m2; Rules.domain allowedDomains m3]
   = JBool true
   <-> exists e, value = Some e /\ isAllowedDomain e allowedDomains = true)
  /\ (value = None ->
      validateField value
        [Rules.required m1; Rules.email m2; Rules.domain allowedDomains m3]
      = JStr (default (js "This field is required") m1)).
Proof.
  split; [|by intros ->].
  rewrite validateField_all. split.
  - intros H. apply Forall_cons in H as [H1 H].
    apply Forall_cons in H as [H2 H]. apply Forall_cons in H as [H3 _].
    unfold Rules.required, isRequired in H1.
    destruct value as [e|]; [|done]. exists e. split; [done|].
    unfold Rules.domain in H3. simpl in H3.
    case_bool_decide as He.
    + subst e. by vm_compute in H1.
    + simpl in H3. destruct (isAllowedDomain e allowedDomains); [done|].
      by destruct m3 as [m|]; [case_bool_decide|].
  - intros (e & -> & Ha).
    pose proof (AgreementFacts.isAllowedDomain_true_valid _ _ Ha) as Hv.
    repeat constructor.
    + unfold Rules.required, isRequired.
      rewrite JsStringFacts.trim_id by by apply isValidEmail_no_space.
      by rewrite bool_decide_eq_false_2 by by apply isValidEmail_nonempty.
    + unfold Rules.email. by rewrite Hv.
    + unfold Rules.domain. simpl. by rewrite Ha, orb_true_r.
Qed.

Lemma rules_required_email_domain_witness :
  exists e,
    Some (js "u@sub.example.com") = Some e
    /\ isAllowedDomain e (Some [js "example.com"]) = true.
Proof.
  apply (proj1 (proj1 (rules_required_email_domain (Some [js "example.com"])
                         None None None (Some (js "u@sub.example.com"))))).
  by vm_compute.
Defined.

(* ===================================================================== *)
(** * Further properties of the notification service *)
(* ===================================================================== *)

(** ** The facade *)

(** X16.  The facade takes [result.data] only when it is truthy: for a
    response whose [data] is [null], [0], [''] or [false] (or missing),
    the envelope's [data] is the whole response, not the field. *)
Theorem facade_falsy_data_returns_response {Backend : Type}
    (api : ApiClient Backend) (op : FacadeOp) (s : System Backend)
    (result : JsVal) (b' : Backend) :
  clientCall api op (backend s) = (Ret result, b') ->
  Js.truthy result = true ->
  Js.truthy (Js.getField result "data") = false ->
  exists env,
    runFacade api op s = (Ret env, afterCall s b' [])
    /\ Js.getField env "success" = JBool true
    /\ Js.getField env "data" = result.
Proof.
  intros H Ht Hd. eexists. split; [by apply runFacade_success|].
  split; [done|]. simpl.
  assert (unwrap result = result) as Hu.
  { unfold unwrap, Js.or, Js.optChain.
    destruct (Js.nullish result); [done|]. by rewrite Hd. }
  destruct op; simpl; rewrite Hu; try done.
  unfold Js.or. by rewrite Ht.
Qed.

Lemma facade_falsy_data_returns_response_witness :
  exists env,
    runFacade scriptedApi OpGetNotificationStats
      (initSystem [Ret (JObj [("data", JNum 0)])])
    = (Ret env, afterCall (initSystem [Ret (JObj [("data", JNum 0)])]) [] [])
    /\ Js.getField env "success" = JBool true
    /\ Js.getField env "data" = JObj [("data", JNum 0)].
Proof.
  exact (facade_falsy_data_returns_response scriptedApi OpGetNotificationStats
           (initSystem [Ret (JObj [("data", JNum 0)])])
           (JObj [("data", JNum 0)]) [] eq_refl eq_refl eq_refl).
Defined.

(** X17.  The [data] of the envelope of [getNotifications] is always
    truthy, whether the call succeeded or failed, so the fallback
    [result.data || []] of [checkFirstTimeUser] is never used; it is [[]]
    when the client returned a falsy value or threw. *)
Theorem getNotifications_data_truthy {Backend : Type}
    (api : ApiClient Backend) (filters : JsVal) (s s' : System Backend)
    (env : JsVal) :
  getNotifications api filters s = (Ret env, s') ->
  Js.truthy (Js.getField env "data") = true
  /\ (Js.getField env "success" = JBool false -> Js.getField env "data" = JArr []).
Proof.
  change (getNotifications api filters) with
    (runFacade api (OpGetNotifications filters)).
  destruct (clientCall api (OpGetNotifications filters) (backend s))
    as [[result|e] b'] eqn:H.
  - rewrite (runFacade_success _ _ _ _ _ H). intros [= <- _]. simpl.
    split; [|done]. unfold Js.or.
    destruct (Js.truthy (unwrap result)) eqn:Hu; done.
  - destruct (Js.nullish e) eqn:He.
    + by rewrite (runFacade_failure_nullish _ _ _ _ _ H He).
    + rewrite (runFacade_failure _ _ _ _ _ H He). by intros [= <- _].
Qed.

Lemma getNotifications_data_truthy_witness :
  Js.truthy
    (Js.getField
       (JObj [("success", JBool true); ("data", JArr []); ("error", JNull)])
       "data") = true.
Proof.
  exact (proj1 (getNotifications_data_truthy scriptedApi JUndefined
                  (initSystem [Ret JNull]) (afterCall (initSystem [Ret JNull]) [] [])
                  (JObj [("success", JBool true); ("data", JArr []);
                         ("error", JNull)]) eq_refl)).
Defined.

(** X18.  [createWelcomeNotification] never throws, whatever the client
    does: it sends the welcome payload through [createNotification], and
    when the client throws [null] or [undefined], so that
    [createNotification] itself throws the [TypeError] of reading
    [error.message], its own [catch] logs a second line and returns the
    failure envelope with the message of that [TypeError]. *)
Theorem createWelcomeNotification_never_throws {Backend : Type}
    (api : ApiClient Backend) (userId organizationId : JsVal)
    (organizationName : jstring) (s : System Backend) :
  (exists env s',
      createWelcomeNotification api userId organizationId organizationName s
      = (Ret env, s')
      /\ Js.hasField "success" env = true)
  /\ (forall e b',
        create api (welcomePayload userId organizationId organizationName)
          (backend s) = (Throw e, b') ->
        Js.nullish e = true ->
        createNotification api
          (welcomePayload userId organizationId organizationName) s
        = (Throw (Js.cannotRead e "message"),
           afterCall s b' [LogError "Failed to create notification:" e])
        /\ createWelcomeNotification api userId organizationId
             organizationName s
           = (Ret (JObj [("success", JBool false);
                         ("error",
                          Js.getField (Js.cannotRead e "message") "message")]),
              afterCall s b'
                [LogError "Failed to create notification:" e;
                 LogError "Failed to create welcome notification:"
                   (Js.cannotRead e "message")])).
Proof.
  set (payload := welcomePayload userId organizationId organizationName).
  assert (forall e b',
             create api payload (backend s) = (Throw e, b') ->
             Js.nullish e = true ->
             createNotification api payload s
             = (Throw (Js.cannotRead e "message"),
                afterCall s b' [LogError "Failed to create notification:" e])
             /\ createWelcomeNotification api userId organizationId
                  organizationName s
                = (Ret (JObj [("success", JBool false);
                              ("error",
                               Js.getField (Js.cannotRead e "message")
                                 "message")]),
                   afterCall s b'
                     [LogError "Failed to create notification:" e;
                      LogError "Failed to create welcome notification:"
                        (Js.cannotRead e "message")]))
    as Hnull.
  { intros e b' H He.
    assert (createNotification api payload s
            = (Throw (Js.cannotRead e "message"),
               afterCall s b' [LogError "Failed to create notification:" e]))
      as Hc
      by exact (runFacade_failure_nullish api (OpCreateNotification payload)
                  _ _ _ H He).
    split; [exact Hc|].
    unfold createWelcomeNotification, tryCatch. fold payload. rewrite Hc.
    unfold mbind, M_bind. rewrite consoleError_afterCall. done. }
  split; [|exact Hnull].
  destruct (create api payload (backend s)) as [[result|e] b'] eqn:H.
  - unfold createWelcomeNotification, tryCatch. fold payload.
    change (createNotification api payload) with
      (runFacade api (OpCreateNotification payload)).
    rewrite (runFacade_success api (OpCreateNotification payload) _ _ _ H).
    by eexists _, _.
  - destruct (Js.nullish e) eqn:He.
    + rewrite (proj2 (Hnull e b' eq_refl He)). by eexists _, _.
    + unfold createWelcomeNotification, tryCatch. fold payload.
      change (createNotification api payload) with
        (runFacade api (OpCreateNotification payload)).
      rewrite (runFacade_failure api (OpCreateNotification payload) _ _ _ H He).
      by eexists _, _.
Qed.

Lemma createWelcomeNotification_never_throws_witness :
  createWelcomeNotification scriptedApi (JNum 7) (JNum 1) (js "Acme")
    (initSystem [Throw JNull])
  = (Ret (JObj [("success", JBool false);
                ("error",
                 JStr (js "Cannot read properties of null (reading 'message')"))]),
     afterCall (initSystem [Throw JNull]) []
       [LogError "Failed to create notification:" JNull;
        LogError "Failed to create welcome notification:"
          (Js.typeError "Cannot read properties of null (reading 'message')")]).
Proof.
  exact (proj2 (proj2 (createWelcomeNotification_never_throws scriptedApi
                         (JNum 7) (JNum 1) (js "Acme")
                         (initSystem [Throw JNull]))
                  JNull [] eq_refl eq_refl)).
Defined.

(** ** First-time users and the welcome notification *)

Section WelcomeFacts.
Context {Backend : Type} (api : ApiClient Backend).

(** With a welcome entry in the list, [some] finds one or throws on the
    way to it. *)
Lemma someM_with_welcome (ns : list JsVal) (w : JsVal) (s : System Backend) :
  w ∈ ns -> Js.nullish w = false -> flaggedWelcome w = true ->
  someM isWelcomeEntry ns s = (Ret true, s)
  \/ exists e, someM isWelcomeEntry ns s = (Throw e, s).
Proof.
  intros Hin Hw Hf. induction ns as [|x ns IH]; [by apply elem_of_nil in Hin|].
  cbn [someM]. unfold mbind, M_bind.
  destruct (stateless_isWelcomeEntry x s) as [[[|]|e] Hx]; rewrite Hx.
  - by left.
  - apply elem_of_cons in Hin as [Heq|Hin]; [|by apply IH].
    subst x. rewrite (isWelcomeEntry_object w s Hw), Hf in Hx. done.
  - right. by exists e.
Qed.

#[local] Arguments someM : simpl never.

Lemma checkFirstTimeUser_with_welcome (s : System Backend) (ns : list JsVal)
    (b' : Backend) (w : JsVal) :
  getAll api (JObj [("limit", JNum 1)]) (backend s) = (Ret (JArr ns), b') ->
  w ∈ ns -> Js.nullish w = false -> flaggedWelcome w = true ->
  (checkFirstTimeUser api s).1 = Ret false.
Proof.
  intros H Hin Hw Hf. unfold checkFirstTimeUser.
  unfold tryCatch at 1. unfold mbind at 1, M_bind at 1.
  change (getNotifications api (JObj [("limit", JNum 1)])) with
    (runFacade api (OpGetNotifications (JObj [("limit", JNum 1)]))).
  rewrite (runFacade_success api
             (OpGetNotifications (JObj [("limit", JNum 1)])) _ _ _ H).
  destruct ns as [|n ns]; [by apply elem_of_nil in Hin|].
  run.
  destruct (someM_with_welcome (n :: ns) w (afterCall s b' []) Hin Hw Hf)
    as [->|[e ->]]; done.
Qed.

End WelcomeFacts.

(** X19.  Once the notification that [createWelcomeNotification] builds
    is in the list the backend returns, [checkFirstTimeUser] answers
    false, wherever the notification stands in the list and whatever the
    other entries are. *)
Theorem checkFirstTimeUser_after_welcome {Backend : Type}
    (api : ApiClient Backend) (s : System Backend) (ns : list JsVal)
    (b' : Backend) (userId organizationId : JsVal) (organizationName : jstring) :
  getAll api (JObj [("limit", JNum 1)]) (backend s) = (Ret (JArr ns), b') ->
  welcomePayload userId organizationId organizationName ∈ ns ->
  (checkFirstTimeUser api s).1 = Ret false.
Proof.
  intros H Hin.
  by apply (checkFirstTimeUser_with_welcome api s ns b'
              (welcomePayload userId organizationId organizationName)).
Qed.

Lemma checkFirstTimeUser_after_welcome_witness :
  (checkFirstTimeUser scriptedApi
     (initSystem
        [Ret (JArr [JObj [("type", JStr (js "task_assigned"))];
                    welcomePayload (JNum 7) (JNum 1) (js "Acme")])])).1
  = Ret false.
Proof.
  refine (checkFirstTimeUser_after_welcome scriptedApi
            (initSystem
               [Ret (JArr [JObj [("type", JStr (js "task_assigned"))];
                           welcomePayload (JNum 7) (JNum 1) (js "Acme")])])
            [JObj [("type", JStr (js "task_assigned"))];
             welcomePayload (JNum 7) (JNum 1) (js "Acme")]
            [] (JNum 7) (JNum 1) (js "Acme") eq_refl _).
  right. left.
Defined.

(** X20.  [checkFirstTimeUser] never throws: for every client and every
    shape of the data it returns a boolean, and it changes nothing but
    the backend and the console. *)
Theorem checkFirstTimeUser_never_throws {Backend : Type}
    (api : ApiClient Backend) (s : System Backend) :
  exists (r : bool) b' logged,
    checkFirstTimeUser api s = (Ret r, afterCall s b' logged).
Proof. apply checkFirstTimeUser_frame. Qed.

(** X21.  No operation of the facade touches the manager: its cache, its
    listeners and its timer are as before, no listener is called, and the
    console only grows. *)
Theorem facade_leaves_manager_alone {Backend : Type}
    (api : ApiClient Backend) (op : FacadeOp) (s : System Backend) :
  manager (runFacade api op s).2 = manager s
  /\ calls (runFacade api op s).2 = calls s
  /\ intervals (runFacade api op s).2 = intervals s
  /\ nextTimer (runFacade api op s).2 = nextTimer s
  /\ console s `prefix_of` console (runFacade api op s).2.
Proof.
  destruct (runFacade_frame api op s) as (b' & logged & ->).
  unfold afterCall. simpl. repeat split. by exists logged.
Qed.

(** ** The manager: listeners, timers and the unread count *)

Section ManagerMoreFacts.
Context {Backend : Type} (api : ApiClient Backend).
Context (callbacks : nat -> JsVal -> option JsVal).

Lemma addListener_run (cb : nat) (s : System Backend) :
  addListener cb s
  = (Ret tt,
     mkSystem
       (mkManager
          (if bool_decide (cb ∈ listeners (manager s)) then listeners (manager s)
           else listeners (manager s) ++ [cb])
          (notifications (manager s)) (isPolling (manager s))
          (pollingInterval (manager s)))
       (backend s) (console s) (calls s) (intervals s) (nextTimer s)).
Proof. done. Qed.

Lemma unregister_run (cb : nat) (s : System Backend) :
  unregister cb s
  = (Ret tt,
     mkSystem
       (mkManager (filter (fun c => c <> cb) (listeners (manager s)))
          (notifications (manager s)) (isPolling (manager s))
          (pollingInterval (manager s)))
       (backend s) (console s) (calls s) (intervals s) (nextTimer s)).
Proof. done. Qed.





Lemma isUnread_object (n : JsVal) (s : System Backend) :
  Js.nullish n = false ->
  isUnread n s = (Ret (negb (Js.truthy (Js.getField n "read"))), s).
Proof.
  intros Hn. unfold isUnread, mbind, M_bind.
  by rewrite (getProp_object n "read" s Hn).
Qed.

Lemma countM_isUnread (l : list JsVal) (s : System Backend) :
  Forall (fun n => Js.nullish n = false) l ->
  countM isUnread l s
  = (Ret (length (filter (fun n => Js.truthy (Js.getField n "read") = false) l)),
     s).
Proof.
  induction 1 as [|n l Hn _ IH]; [done|].
  cbn [countM]. unfold mbind, M_bind.
  rewrite (isUnread_object n s Hn), IH. unfold mret, M_ret.
  rewrite filter_cons.
  destruct (Js.truthy (Js.getField n "read")); simpl;
    repeat case_decide; done.
Qed.

End ManagerMoreFacts.



(** X23.  Registration behaves like a set.  [addListener] registers the
    callback, and changes nothing when it is registered already.  The
    unregister function removes the callback, however often it was
    added, and keeps the other listeners in their order; registering a
    new callback and unregistering it gives back the listeners as they
    were. *)
Theorem addListener_unregister {Backend : Type} (cb : nat)
    (s : System Backend) :
  cb ∈ listeners (manager (addListener cb s).2)
  /\ (cb ∈ listeners (manager s) ->
      listeners (manager (addListener cb s).2) = listeners (manager s))
  /\ (cb ∉ listeners (manager (unregister cb s).2))
  /\ listeners (manager (unregister cb s).2)
     = filter (fun c => c <> cb) (listeners (manager s))
  /\ (cb ∉ listeners (manager (unregister cb (addListener cb (addListener cb s).2).2).2))
  /\ (cb ∉ listeners (manager s) ->
      listeners (manager (unregister cb (addListener cb s).2).2)
      = listeners (manager s)).
Proof.
  rewrite !addListener_run, !unregister_run. simpl.
  split; [|split; [|split; [|split; [|split]]]].
  - case_bool_decide; [done|]. apply elem_of_app. right. by left.
  - intros Hin. by rewrite bool_decide_eq_true_2.
  - intros [Hne _]%list_elem_of_filter. done.
  - done.
  - intros [Hne _]%list_elem_of_filter. done.
  - intros Hnin. rewrite bool_decide_eq_false_2 by done.
    rewrite filter_app. simpl. rewrite filter_cons, decide_False by tauto.
    rewrite filter_nil, app_nil_r.
    induction (listeners (manager s)) as [|x l IH]; [done|].
    apply not_elem_of_cons in Hnin as [Hx Hl].
    rewrite filter_cons, decide_True by congruence. f_equal. by apply IH.
Qed.

Lemma addListener_unregister_witness :
  listeners (manager (unregister 4 (addListener 4 (pollingSystem [])).2).2)
  = listeners (manager (pollingSystem [])).
Proof.
  apply (addListener_unregister 4 (pollingSystem [])).
  by vm_compute; intros Hin; repeat (apply elem_of_cons in Hin as [?|Hin]; [done|]);
     apply elem_of_nil in Hin.
Defined.

(** X24.  In every reachable state, [stopRealTime] leaves the manager
    idle with no handle and nothing scheduled, and a second
    [stopRealTime] changes neither the manager nor the timers;
    [startRealTime] followed by [stopRealTime] on an idle manager gives
    the manager back as it was. *)
Theorem stopRealTime_idle {Backend : Type} (api : ApiClient Backend)
    (callbacks : nat -> JsVal -> option JsVal) (s : System Backend) :
  reachable api callbacks s ->
  intervals (stopRealTime s).2 = []
  /\ isPolling (manager (stopRealTime s).2) = false
  /\ pollingInterval (manager (stopRealTime s).2) = None
  /\ manager (stopRealTime (stopRealTime s).2).2 = manager (stopRealTime s).2
  /\ intervals (stopRealTime (stopRealTime s).2).2 = []
  /\ (isPolling (manager s) = false ->
      manager (stopRealTime (startRealTime s).2).2 = manager s
      /\ intervals (stopRealTime (startRealTime s).2).2 = []).
Proof.
  intros Hr. pose proof (reachable_inv api callbacks s Hr) as [Hn Hinv].
  assert (intervals (stopRealTime s).2 = []
          /\ isPolling (manager (stopRealTime s).2) = false
          /\ pollingInterval (manager (stopRealTime s).2) = None) as (H1 & H2 & H3).
  { rewrite stopRealTime_run. simpl.
    destruct Hinv as [(_ & id & Hid & Hp & Hi)|(_ & Hp & Hi)]; rewrite Hp, Hi; simpl.
    - apply N.eqb_neq in Hid as Hid'. rewrite Hid'. simpl.
      rewrite filter_cons_False by (simpl; tauto). done.
    - done. }
  split; [done|]. split; [done|]. split; [done|].
  split; [|split].
  - rewrite (stopRealTime_run (stopRealTime s).2). simpl.
    revert H2 H3. generalize (manager (stopRealTime s).2).
    intros [ls ns ip pi]; simpl. by intros -> ->.
  - rewrite (stopRealTime_run (stopRealTime s).2). simpl.
    by rewrite H3.
  - intros Hp. destruct Hinv as [(Hp' & _)|(_ & Hpi & Hi)]; [congruence|].
    rewrite startRealTime_idle by done. rewrite stopRealTime_run. simpl.
    apply N.eqb_neq in Hn as Hn'. rewrite Hn'. simpl. rewrite Hi. simpl.
    rewrite filter_cons_False by (simpl; tauto). split; [|done].
    revert Hp Hpi. generalize (manager s).
    intros [ls ns ip pi]; simpl. by intros -> ->.
Qed.

Lemma stopRealTime_idle_witness :
  intervals (stopRealTime (pollingSystem [])).2 = []
  /\ isPolling (manager (stopRealTime (pollingSystem [])).2) = false.
Proof.
  assert (reachable scriptedApi secondThrows (pollingSystem [])) as Hr.
  { unfold pollingSystem. repeat apply reachable_step. apply reachable_init. }
  pose proof (stopRealTime_idle scriptedApi secondThrows (pollingSystem []) Hr)
    as (H1 & H2 & _).
  exact (conj H1 H2).
Defined.

(** X26.  After a poll that fetched an array of notification objects,
    [getUnreadCount] returns the number of fetched notifications whose
    [read] is falsy, which is at most the number fetched; it does not
    fetch and changes nothing. *)
Theorem getUnreadCount_after_poll {Backend : Type} (api : ApiClient Backend)
    (callbacks : nat -> JsVal -> option JsVal) (s s1 : System Backend)
    (env : JsVal) (l : list JsVal) :
  getNotifications api JUndefined s = (Ret env, s1) ->
  Js.truthy (Js.getField env "success") = true ->
  Js.getField env "data" = JArr l ->
  Forall (fun n => Js.nullish n = false) l ->
  getUnreadCountM (pollTick api callbacks s).2
  = (Ret (length (filter (fun n => Js.truthy (Js.getField n "read") = false) l)),
     (pollTick api callbacks s).2)
  /\ (length (filter (fun n => Js.truthy (Js.getField n "read") = false) l)
      <= length l)%nat.
Proof.
  intros H Ht Hd Hl. split; [|apply length_filter].
  rewrite (pollTick_success api callbacks s s1 env H Ht). rewrite Hd.
  unfold getUnreadCountM, mbind, M_bind, getManager. simpl.
  by rewrite countM_isUnread.
Qed.

Lemma getUnreadCount_after_poll_witness :
  getUnreadCountM
    (pollTick scriptedApi secondThrows (pollingSystem [Ret twoNotifications])).2
  = (Ret 1%nat,
     (pollTick scriptedApi secondThrows
        (pollingSystem [Ret twoNotifications])).2).
Proof.
  refine (proj1 (getUnreadCount_after_poll scriptedApi secondThrows
                   (pollingSystem [Ret twoNotifications])
                   (afterCall (pollingSystem [Ret twoNotifications]) [] [])
                   (JObj [("success", JBool true); ("data", twoNotifications);
                          ("error", JNull)])
                   [JObj [("id", JNum 1); ("type", JStr (js "task_assigned"));
                          ("read", JBool true)];
                    JObj [("id", JNum 2); ("type", JStr (js "task_updated"));
                          ("read", JBool false)]]
                   eq_refl eq_refl eq_refl _)).
  by repeat constructor.
Defined.

(** X27.  The manager caches whatever the envelope holds.  When the
    client answers with an object that has no truthy [data] (so that the
    envelope's [data] is that object), the poll still succeeds and the
    listeners are called with the object, but [getUnreadCount] then
    throws a [TypeError]: an object has no [filter]. *)
Theorem getUnreadCount_on_object {Backend : Type} (api : ApiClient Backend)
    (callbacks : nat -> JsVal -> option JsVal) (s s1 : System Backend)
    (env : JsVal) (fields : list (string * JsVal)) :
  getNotifications api JUndefined s = (Ret env, s1) ->
  Js.truthy (Js.getField env "success") = true ->
  Js.getField env "data" = JObj fields ->
  notifications (manager (pollTick api callbacks s).2) = JObj fields
  /\ calls (pollTick api callbacks s).2
     = calls s1 ++ invocations (JObj fields) (listeners (manager s1))
  /\ getUnreadCountM (pollTick api callbacks s).2
     = (Throw (Js.typeError "this.notifications.filter is not a function"),
        (pollTick api callbacks s).2).
Proof.
  intros H Ht Hd.
  rewrite (pollTick_success api callbacks s s1 env H Ht). rewrite Hd.
  unfold getUnreadCountM, mbind, M_bind, getManager. simpl. done.
Qed.

Lemma getUnreadCount_on_object_witness :
  getUnreadCountM
    (pollTick scriptedApi secondThrows
       (pollingSystem [Ret (JObj [("items", twoNotifications)])])).2
  = (Throw (Js.typeError "this.notifications.filter is not a function"),
     (pollTick scriptedApi secondThrows
        (pollingSystem [Ret (JObj [("items", twoNotifications)])])).2).
Proof.
  exact (proj2 (proj2 (getUnreadCount_on_object scriptedApi secondThrows
                         (pollingSystem [Ret (JObj [("items", twoNotifications)])])
                         (afterCall
                            (pollingSystem
                               [Ret (JObj [("items", twoNotifications)])]) [] [])
                         (JObj [("success", JBool true);
                                ("data", JObj [("items", twoNotifications)]);
                                ("error", JNull)])
                         [("items", twoNotifications)]
                         eq_refl eq_refl eq_refl))).
Defined.

(** ** Names *)

Lemma truthy_isValidName n :
  Js.truthy (isValidName n) = (2 <=? length (JsString.trim n))%nat.
Proof. unfold isValidName. case_bool_decide as Hn; [by subst n | done]. Qed.

Lemma truthy_isValidOrganization n :
  Js.truthy (isValidOrganization n)
  = ((2 <=? length (JsString.trim n)) && (length (JsString.trim n) <=? 100))%nat.
Proof.
  unfold isValidOrganization. case_bool_decide as Hn; [by subst n|].
  by destruct (2 <=? length (JsString.trim n))%nat.
Qed.

(** X15.  A name is accepted by [isValidName] exactly when it has at
    least two characters once trimmed, and by [isValidOrganization] when
    it has between 2 and 100; white space around the name never counts,
    and every accepted organization name is an accepted name. *)
Theorem names_ignore_padding (n sp sp' : jstring) :
  Forall (fun c => JsString.isSpace c = true) sp ->
  Forall (fun c => JsString.isSpace c = true) sp' ->
  Js.truthy (isValidName (sp ++ n ++ sp')) = Js.truthy (isValidName n)
  /\ Js.truthy (isValidOrganization (sp ++ n ++ sp'))
     = Js.truthy (isValidOrganization n)
  /\ (Js.truthy (isValidName n) = true
      <-> (2 <= length (JsString.trim n))%nat)
  /\ (Js.truthy (isValidOrganization n) = true
      <-> (2 <= length (JsString.trim n) <= 100)%nat).
Proof.
  intros Hsp Hsp'.
  rewrite !truthy_isValidName, !truthy_isValidOrganization.
  rewrite (CaseFacts.trim_padded sp n sp' Hsp Hsp').
  split; [done|]. split; [done|]. split.
  - apply Nat.leb_le.
  - rewrite andb_true_iff, !Nat.leb_le. done.
Qed.

Lemma names_ignore_padding_witness :
  Js.truthy (isValidName (js "   " ++ js "J" ++ js "  "))
  = Js.truthy (isValidName (js "J")).
Proof.
  assert (Forall (fun c => JsString.isSpace c = true) (js "   ")) as H1
    by (vm_compute; by repeat constructor).
  assert (Forall (fun c => JsString.isSpace c = true) (js "  ")) as H2
    by (vm_compute; by repeat constructor).
  exact (proj1 (names_ignore_padding (js "J") (js "   ") (js "  ") H1 H2)).
Defined.

Lemma validateMemberInvitation_errors_witness :
  Invitation.errors
    (Invitation.validateMemberInvitation
       (Invitation.mkData (Some (js "dup@x.com")) None (Some (js "J")))
       [js "dup@x.com"] None) <> [].
Proof.
  apply (proj1 (proj2 (validateMemberInvitation_errors
                         (Invitation.mkData (Some (js "dup@x.com")) None
                            (Some (js "J")))
                         [js "dup@x.com"] None))).
  by vm_compute.
Defined.

Example normalizeEmails_sample :
  normalizeEmails (JStr (js "A@X.com, b@y.com")) = [js "a@x.com"; js "b@y.com"]
  /\ normalizeEmails (JArr [JStr (js " A@X.com "); JNum 3; JStr (js "bad")])
     = [js "a@x.com"]
  /\ normalizeEmails (JNum 7) = [].
Proof. by vm_compute. Qed.
